(** * Drip: the review scheduling engine of [database_manager.py]

    A shallow embedding of [DatabaseManager] (the flashcards table, the
    priority scorer, the interval policy, the review update, the due-set
    query, the distractor samplers, the next-check delay and the
    authoring insert), of the option builders and the session record of
    [reviewer_module.py], and of the pools, the batch update and the
    timeout configuration of [reviewer_schedule_maker.py].

    Conventions of the embedding.
    - A timestamp is a [Z]: microseconds on the local clock, the resolution
      of Python's [datetime].  The ISO strings SQLite stores compare like
      the instants they denote.
    - A Python [float] / SQLite [REAL] is a rational [Q]: the arithmetic of
      the scorer and of the interval policy is carried out exactly.
    - The table is the list of its rows; [PRIMARY KEY] and [CHECK] are the
      predicates [unique_ids] and [check_ok].
    - Every call of [datetime.now()] made during one operation is a reading
      [clock k], [k] counting the calls of that operation from 0.
    - [ORDER BY RANDOM()] and [random.shuffle] are rearrangement oracles. *)

From Stdlib Require Import ZArith QArith Qminmax Qround Lqa Bool List String Lia.
From Stdlib Require Import Permutation Sorted RelationClasses.
Import ListNotations.

Open Scope string_scope.
Open Scope list_scope.
Open Scope Z_scope.

(** ** Data model *)

Definition time := Z.
Definition clock := nat -> time.

(** A clock that does not advance while the operation runs. *)
Definition frozen (now : time) : clock := fun _ => now.

(** [class FlashCard]: one row of the [flashcards] table. *)
Record FlashCard := mkFlashCard {
  id : Z;
  word : string;
  meaning : string;
  example : string;
  tag : string;
  stage_id : Z;
  correct : option bool;
  created_at : option time;
  last_reviewed_at : option time;
  next_review_time : option time;
  review_count : Z;
  correct_count : Z;
  wrong_count : Z;
  priority_score : Q;
  interval_hours : Q
}.

Definition store := list FlashCard.

Inductive exn := KeyError | IntegrityError.

(** What a call leaves behind: it returns a value, or an exception
    propagates to the caller with the table in the given state. *)
Inductive outcome (A : Type) :=
| Returned (a : A)
| Raised (e : exn) (db : store).
Arguments Returned {A} a.
Arguments Raised {A} e db.

(** Column writes of the [UPDATE ... SET] statements. *)
Definition set_stage_id (v : Z) (r : FlashCard) : FlashCard :=
  mkFlashCard (id r) (word r) (meaning r) (example r) (tag r) v (correct r)
    (created_at r) (last_reviewed_at r) (next_review_time r) (review_count r)
    (correct_count r) (wrong_count r) (priority_score r) (interval_hours r).

Definition set_correct (v : option bool) (r : FlashCard) : FlashCard :=
  mkFlashCard (id r) (word r) (meaning r) (example r) (tag r) (stage_id r) v
    (created_at r) (last_reviewed_at r) (next_review_time r) (review_count r)
    (correct_count r) (wrong_count r) (priority_score r) (interval_hours r).

Definition set_last_reviewed_at (v : option time) (r : FlashCard) : FlashCard :=
  mkFlashCard (id r) (word r) (meaning r) (example r) (tag r) (stage_id r)
    (correct r) (created_at r) v (next_review_time r) (review_count r)
    (correct_count r) (wrong_count r) (priority_score r) (interval_hours r).

Definition set_next_review_time (v : option time) (r : FlashCard) : FlashCard :=
  mkFlashCard (id r) (word r) (meaning r) (example r) (tag r) (stage_id r)
    (correct r) (created_at r) (last_reviewed_at r) v (review_count r)
    (correct_count r) (wrong_count r) (priority_score r) (interval_hours r).

Definition set_review_count (v : Z) (r : FlashCard) : FlashCard :=
  mkFlashCard (id r) (word r) (meaning r) (example r) (tag r) (stage_id r)
    (correct r) (created_at r) (last_reviewed_at r) (next_review_time r) v
    (correct_count r) (wrong_count r) (priority_score r) (interval_hours r).

Definition set_correct_count (v : Z) (r : FlashCard) : FlashCard :=
  mkFlashCard (id r) (word r) (meaning r) (example r) (tag r) (stage_id r)
    (correct r) (created_at r) (last_reviewed_at r) (next_review_time r)
    (review_count r) v (wrong_count r) (priority_score r) (interval_hours r).

Definition set_wrong_count (v : Z) (r : FlashCard) : FlashCard :=
  mkFlashCard (id r) (word r) (meaning r) (example r) (tag r) (stage_id r)
    (correct r) (created_at r) (last_reviewed_at r) (next_review_time r)
    (review_count r) (correct_count r) v (priority_score r) (interval_hours r).

Definition set_priority_score (v : Q) (r : FlashCard) : FlashCard :=
  mkFlashCard (id r) (word r) (meaning r) (example r) (tag r) (stage_id r)
    (correct r) (created_at r) (last_reviewed_at r) (next_review_time r)
    (review_count r) (correct_count r) (wrong_count r) v (interval_hours r).

Definition set_interval_hours (v : Q) (r : FlashCard) : FlashCard :=
  mkFlashCard (id r) (word r) (meaning r) (example r) (tag r) (stage_id r)
    (correct r) (created_at r) (last_reviewed_at r) (next_review_time r)
    (review_count r) (correct_count r) (wrong_count r) (priority_score r) v.

(** [CHECK (stage_id IN (1, 2, 3, 4))] *)
Definition stage_check (s : Z) : bool :=
  (s =? 1) || (s =? 2) || (s =? 3) || (s =? 4).

Definition check_ok (db : store) : Prop :=
  Forall (fun r => stage_check (stage_id r) = true) db.

(** [id INTEGER PRIMARY KEY] *)
Definition unique_ids (db : store) : Prop := NoDup (map id db).

(** [SELECT * FROM flashcards WHERE id = ?] followed by [fetchone()]. *)
Definition get_flashcard_by_id (db : store) (flashcard_id : Z) : option FlashCard :=
  find (fun r => id r =? flashcard_id) db.

(** [UPDATE flashcards SET ... WHERE id = ?]: the writes [f] reach every
    row the [WHERE] clause selects. *)
Definition update_where (flashcard_id : Z) (f : FlashCard -> FlashCard)
  (db : store) : store :=
  map (fun r => if id r =? flashcard_id then f r else r) db.

(** ** Interval policy: [_calculate_next_interval] *)

(** [base_intervals.get(flashcard.stage_id, 0.5)] *)
Definition base_intervals (s : Z) : Q :=
  if s =? 1 then (1 # 2)%Q
  else if s =? 2 then 2%Q
  else if s =? 3 then 24%Q
  else if s =? 4 then 168%Q
  else (1 # 2)%Q.

Definition _calculate_next_interval (flashcard : FlashCard) (result : string) : Q :=
  let base_interval := base_intervals (stage_id flashcard) in
  if (result =? "True")%string then
    let multiplier := if stage_id flashcard <=? 2 then 2%Q else (3 # 2)%Q in
    (base_interval * multiplier)%Q
  else if (result =? "False")%string then (base_interval * (1 # 2))%Q
  else if (result =? "TIMEOUT")%string then base_interval
  else if (result =? "ESCAPE")%string then base_interval
  else base_interval.

(** ** Priority scorer: [_calculate_priority_score] *)

(** [stage_priority[flashcard.stage_id]]; [None] is the [KeyError] of a
    missing key. *)
Definition stage_priority (s : Z) : option Q :=
  if s =? 1 then Some 100%Q
  else if s =? 2 then Some 80%Q
  else if s =? 3 then Some 60%Q
  else if s =? 4 then Some 40%Q
  else None.

(** [timedelta.total_seconds() / 3600] of a difference of two instants. *)
Definition hours_of (d : Z) : Q := (d # 3600000000)%Q.

Definition _calculate_priority_score (current_time : time) (flashcard : FlashCard)
  : option Q :=
  match stage_priority (stage_id flashcard) with
  | None => None
  | Some base_score =>
      let overdue_bonus :=
        match next_review_time flashcard with
        | Some next_review =>
            if next_review <=? current_time then
              let overdue_hours := hours_of (current_time - next_review) in
              Qmin (overdue_hours * 5)%Q 50%Q
            else 0%Q
        | None => 0%Q
        end in
      let wrong_penalty :=
        match correct flashcard with Some false => 30%Q | _ => 0%Q end in
      let creation_bonus := if stage_id flashcard =? 1 then 20%Q else 0%Q in
      Some (base_score + overdue_bonus + wrong_penalty + creation_bonus)%Q
  end.

(** ** Review state machine: [update_flashcard_after_review] *)

(** Rounding of [timedelta] to whole microseconds (ties to even). *)
Definition round_half_even (x : Q) : Z :=
  let f := Qfloor x in
  let r := (x - inject_Z f)%Q in
  if Qle_bool r (1 # 2) then
    if Qle_bool (1 # 2) r then (if Z.even f then f else f + 1) else f
  else f + 1.

(** [timedelta(hours=h)] in microseconds. *)
Definition timedelta_hours (h : Q) : Z :=
  round_half_even (h * 3600000000)%Q.

(** [_update_priority_score]: reads the row back, scores it, writes the
    score.  A [KeyError] of the scorer leaves the table as it was read. *)
Definition _update_priority_score (current_time : time) (flashcard_id : Z)
  (db : store) : outcome store :=
  match get_flashcard_by_id db flashcard_id with
  | Some flashcard =>
      match _calculate_priority_score current_time flashcard with
      | Some new_score =>
          Returned (update_where flashcard_id (set_priority_score new_score) db)
      | None => Raised KeyError db
      end
  | None => Returned db
  end.

(** The result is the table after the call.  The main [UPDATE] is
    committed before the score is refreshed; an [UPDATE] that writes a
    [stage_id] outside the [CHECK] is refused and rolled back. *)
Definition update_flashcard_after_review (clk : clock) (db : store)
  (flashcard_id : Z) (result : string) : outcome store :=
  match get_flashcard_by_id db flashcard_id with
  | None => Returned db
  | Some flashcard =>
      if (result =? "TIMEOUT")%string then
        let db1 :=
          update_where flashcard_id
            (fun r => set_review_count (review_count flashcard + 1)
                        (set_last_reviewed_at (Some (clk 0%nat)) r)) db in
        _update_priority_score (clk 1%nat) flashcard_id db1
      else if (result =? "ESCAPE")%string then
        let db1 :=
          update_where flashcard_id
            (fun r => set_review_count (review_count flashcard + 1)
                        (set_last_reviewed_at (Some (clk 0%nat)) r)) db in
        _update_priority_score (clk 1%nat) flashcard_id db1
      else
        let new_interval := _calculate_next_interval flashcard result in
        let next_review := clk 0%nat + timedelta_hours new_interval in
        let now := clk 1%nat in
        if (result =? "True")%string then
          let new_stage := Z.min (stage_id flashcard + 1) 4 in
          if stage_check new_stage then
            let db1 :=
              update_where flashcard_id
                (fun r =>
                   set_interval_hours new_interval
                     (set_correct_count (correct_count flashcard + 1)
                        (set_review_count (review_count flashcard + 1)
                           (set_next_review_time (Some next_review)
                              (set_last_reviewed_at (Some now)
                                 (set_correct (Some true)
                                    (set_stage_id new_stage r))))))) db in
            _update_priority_score (clk 2%nat) flashcard_id db1
          else Raised IntegrityError db
        else if (result =? "False")%string then
          let db1 :=
            update_where flashcard_id
              (fun r =>
                 set_interval_hours new_interval
                   (set_wrong_count (wrong_count flashcard + 1)
                      (set_review_count (review_count flashcard + 1)
                         (set_next_review_time (Some next_review)
                            (set_last_reviewed_at (Some now)
                               (set_correct (Some false) r)))))) db in
          _update_priority_score (clk 2%nat) flashcard_id db1
        else
          _update_priority_score (clk 2%nat) flashcard_id db
  end.

(** The outcomes of successive reviews of one item, each review with the
    clock readings of its own call. *)
Fixpoint review_sequence (db : store) (flashcard_id : Z)
  (steps : list (clock * string)) : outcome store :=
  match steps with
  | [] => Returned db
  | (clk, result) :: rest =>
      match update_flashcard_after_review clk db flashcard_id result with
      | Returned db' => review_sequence db' flashcard_id rest
      | Raised e db' => Raised e db'
      end
  end.

(** The four outcome tags the reviewer records. *)
Definition is_outcome_tag (result : string) : bool :=
  ((result =? "True") || (result =? "False") ||
   (result =? "TIMEOUT") || (result =? "ESCAPE"))%string.

(** Timeout and cancel: the review was not answered. *)
Definition is_non_answer (result : string) : bool :=
  ((result =? "TIMEOUT") || (result =? "ESCAPE"))%string.

Fixpoint count_non_answers (steps : list (clock * string)) : Z :=
  match steps with
  | [] => 0
  | (_, result) :: rest =>
      (if is_non_answer result then 1 else 0) + count_non_answers rest
  end.

(** ** Due-set query: [get_due_flashcards] *)

(** [ORDER BY]: a stable sort by insertion, [leb a b] telling that [a]
    may stand before [b]. *)
Section OrderBy.
Context {A : Type} (leb : A -> A -> bool).

Fixpoint insert_row (x : A) (l : list A) : list A :=
  match l with
  | [] => [x]
  | y :: ys => if leb x y then x :: l else y :: insert_row x ys
  end.

Definition order_by (l : list A) : list A := fold_right insert_row [] l.
End OrderBy.

(** [LIMIT ?]: a negative bound means no bound in SQLite. *)
Definition sql_limit {A : Type} (n : Z) (l : list A) : list A :=
  if n <? 0 then l else firstn (Z.to_nat n) l.

(** [next_review_time <= ?]; a [NULL] due time satisfies no comparison. *)
Definition due_at (now : time) (r : FlashCard) : bool :=
  match next_review_time r with
  | Some t => t <=? now
  | None => false
  end.

(** Ascending order of a nullable timestamp column, [NULL] first. *)
Definition time_asc (a b : option time) : bool :=
  match a, b with
  | None, _ => true
  | Some _, None => false
  | Some x, Some y => x <=? y
  end.

(** [ORDER BY priority_score DESC, stage_id ASC, next_review_time ASC] *)
Definition due_order (a b : FlashCard) : bool :=
  match (priority_score a ?= priority_score b)%Q with
  | Gt => true
  | Lt => false
  | Eq =>
      if stage_id a <? stage_id b then true
      else if stage_id b <? stage_id a then false
      else time_asc (next_review_time a) (next_review_time b)
  end.

(** The loop of [_update_all_priority_scores] over the fetched [rows]:
    row number [k] is scored at the reading [clk k] and the score written
    [WHERE id = ?].  [None] is a [KeyError] of the scorer. *)
Fixpoint rescore_rows (clk : clock) (k : nat) (rows : list FlashCard)
  (db : store) : option store :=
  match rows with
  | [] => Some db
  | flashcard :: rest =>
      match _calculate_priority_score (clk k) flashcard with
      | None => None
      | Some new_score =>
          rescore_rows clk (S k) rest
            (update_where (id flashcard) (set_priority_score new_score) db)
      end
  end.

(** An exception inside the [with] block rolls the writes back. *)
Definition _update_all_priority_scores (clk : clock) (db : store)
  : outcome store :=
  match rescore_rows clk 0%nat db db with
  | Some db' => Returned db'
  | None => Raised KeyError db
  end.

(** Returns the table with its refreshed scores and the selected rows. *)
Definition get_due_flashcards (clk : clock) (db : store) (limit : Z)
  : outcome (store * list FlashCard) :=
  match _update_all_priority_scores clk db with
  | Raised e db' => Raised e db'
  | Returned db1 =>
      let now := clk (List.length db) in
      Returned (db1, sql_limit limit (order_by due_order (filter (due_at now) db1)))
  end.

(** ** Next-check delay: [calculate_next_test_interval] *)

(** [SELECT COUNT( * ) FROM flashcards WHERE next_review_time <= ?] *)
Definition count_due (now : time) (db : store) : Z :=
  Z.of_nat (List.length (filter (due_at now) db)).

(** [SELECT MIN(next_review_time) FROM flashcards WHERE next_review_time > ?] *)
Fixpoint earliest_upcoming (now : time) (db : store) : option time :=
  match db with
  | [] => None
  | r :: rest =>
      match next_review_time r with
      | Some t =>
          if now <? t then
            match earliest_upcoming now rest with
            | Some m => Some (Z.min t m)
            | None => Some t
            end
          else earliest_upcoming now rest
      | None => earliest_upcoming now rest
      end
  end.

(** [int(delta.total_seconds() / 60)]: whole minutes, truncated toward 0. *)
Definition whole_minutes (delta : Z) : Z := Z.quot delta 60000000.

Definition calculate_next_test_interval (clk : clock) (db : store) : Z :=
  let due_count := count_due (clk 0%nat) db in
  if due_count =? 0 then
    match earliest_upcoming (clk 1%nat) db with
    | Some next_due =>
        let minutes_until_next :=
          Z.max 5 (whole_minutes (next_due - clk 2%nat)) in
        Z.min minutes_until_next 60
    | None => 5
    end
  else if due_count <=? 5 then 5
  else 3.

(** ** Distractor samplers *)

(** Python's [w in ws] on a list of strings. *)
Definition mem_string (w : string) (ws : list string) : bool :=
  existsb (String.eqb w) ws.

(** Python's [ws[:count]]: a negative [count] drops from the end. *)
Definition slice_to {A : Type} (count : Z) (ws : list A) : list A :=
  if count <? 0 then firstn (Z.to_nat (Z.of_nat (List.length ws) + count)) ws
  else firstn (Z.to_nat count) ws.

(** The [WHERE] clause of the window query: the ten ids before and the
    ten ids after [exclude_id]. *)
Definition in_window (exclude_id : Z) (r : FlashCard) : bool :=
  negb (id r =? exclude_id) &&
  (((Z.max 1 (exclude_id - 10) <=? id r) && (id r <=? exclude_id - 1)) ||
   ((exclude_id + 1 <=? id r) && (id r <=? exclude_id + 10))).

Definition id_asc (a b : FlashCard) : bool := id a <=? id b.

(** The loop that tops the list up from the built-in defaults; it stops
    at the first default met once [count] entries are there. *)
Fixpoint top_up (count : Z) (defaults : list string) (ws : list string)
  : list string :=
  match defaults with
  | [] => ws
  | w :: rest =>
      if count <=? Z.of_nat (List.length ws) then ws
      else if mem_string w ws then top_up count rest ws
      else top_up count rest (ws ++ [w])
  end.

(** The body shared by [get_contextual_words_for_stage3] and
    [get_contextual_meanings_for_stage2], which differ in the column
    [col] they select and in their default list.  [sql_random] is the
    order [ORDER BY RANDOM()] gives the rows, [shuffle] the order
    [random.shuffle] leaves the list in. *)
Definition contextual_sample (col : FlashCard -> string)
  (defaults : list string)
  (sql_random : list FlashCard -> list FlashCard)
  (shuffle : list string -> list string)
  (db : store) (exclude_id : Z) (count : Z) : list string :=
  let words := map col (order_by id_asc (filter (in_window exclude_id) db)) in
  let words :=
    if Z.of_nat (List.length words) <? count then
      let additional_results :=
        sql_limit (count - Z.of_nat (List.length words))
          (sql_random
             (filter (fun r => negb (id r =? exclude_id) &&
                               negb (mem_string (col r) words)) db)) in
      (words ++ map col additional_results)
    else words in
  let words := top_up count defaults words in
  slice_to count (shuffle words).

Definition default_words : list string :=
  [ "apple"; "book"; "cat"; "dog"; "elephant";
    "flower"; "guitar"; "house"; "computer"; "phone";
    "chair"; "table"; "water"; "coffee"; "music";
    "movie"; "garden"; "window"; "door"; "street" ].

Definition default_meanings : list string :=
  [ "a red fruit that grows on trees";
    "an object with pages for reading";
    "a small animal that says meow";
    "a loyal pet animal";
    "a large gray animal with a trunk";
    "a colorful plant that blooms";
    "a musical instrument with strings";
    "a building where people live";
    "a yellow fruit that monkeys like";
    "a vehicle with four wheels";
    "a device for communication";
    "a piece of furniture for sitting";
    "a liquid that falls from the sky";
    "a bright object in the sky";
    "a green plant that grows in lawns";
    "a tool for writing";
    "a container for drinking";
    "a place where people work";
    "a time when the sun sets";
    "a feeling of happiness" ].

Definition get_contextual_words_for_stage3 :=
  contextual_sample word default_words.

Definition get_contextual_meanings_for_stage2 :=
  contextual_sample meaning default_meanings.

(** *** The option builders of the reviewer *)

(** [for w in defaults: if len(options) < 4 and w not in options] *)
Fixpoint add_default_options (defaults : list string) (options : list string)
  : list string :=
  match defaults with
  | [] => options
  | w :: rest =>
      if (Z.of_nat (List.length options) <? 4) && negb (mem_string w options)
      then add_default_options rest (options ++ [w])
      else add_default_options rest options
  end.

(** The body shared by [get_multiple_choice_options] and
    [get_multiple_choice_meanings_for_stage2]: [answer] is the card's own
    word or meaning, [pool] the contextual list the session prepared; the
    two [random.shuffle] calls are [shuffle_pool] and [shuffle_options]. *)
Definition build_options (answer : string) (defaults : list string)
  (shuffle_pool shuffle_options : list string -> list string)
  (pool : list string) : list string :=
  let options := [answer] in
  let available :=
    shuffle_pool (filter (fun w => negb (w =? answer)%string) pool) in
  let options := options ++ firstn 3 available in
  let options := add_default_options defaults options in
  slice_to 4 (shuffle_options options).

Definition get_multiple_choice_options
  (shuffle_pool shuffle_options : list string -> list string)
  (contextual_words : list string) (flashcard : FlashCard) : list string :=
  build_options (word flashcard)
    ["example"; "test"; "word"; "sample"; "demo"]
    shuffle_pool shuffle_options contextual_words.

Definition get_multiple_choice_meanings_for_stage2
  (shuffle_pool shuffle_options : list string -> list string)
  (contextual_meanings : list string) (flashcard : FlashCard) : list string :=
  build_options (meaning flashcard)
    [ "a common example word";
      "a test meaning for practice";
      "a sample definition";
      "a demonstration phrase";
      "a placeholder meaning" ]
    shuffle_pool shuffle_options contextual_meanings.

(** ** The interval table and the priority score as the specification
    words them *)

Module Spec.

(** Base interval per stage: [{1:0.5, 2:2, 3:24, 4:168}] hours. *)
Definition baseInterval (stage : Z) : Q :=
  if stage =? 1 then (1 # 2)%Q
  else if stage =? 2 then 2%Q
  else if stage =? 3 then 24%Q
  else 168%Q.

(** [base = {1:100, 2:80, 3:60, 4:40}[stage]] *)
Definition base (stage : Z) : Q :=
  if stage =? 1 then 100%Q
  else if stage =? 2 then 80%Q
  else if stage =? 3 then 60%Q
  else 40%Q.

(** [overdueHours = max(0, hours(now - nextDueAt))], 0 without a due time. *)
Definition overdueHours (now : time) (nextDueAt : option time) : Q :=
  match nextDueAt with
  | Some t => Qmax 0 (hours_of (now - t))
  | None => 0%Q
  end.

(** [overdueBonus = min(5 * overdueHours, 50)] *)
Definition overdueBonus (now : time) (nextDueAt : option time) : Q :=
  Qmin (5 * overdueHours now nextDueAt) 50.

(** [wrongPenaltyBoost = 30 if lastOutcome == Incorrect else 0] *)
Definition wrongPenaltyBoost (lastOutcome : option bool) : Q :=
  match lastOutcome with
  | Some false => 30%Q
  | _ => 0%Q
  end.

(** [freshnessBonus = 20 if stage == 1 else 0] *)
Definition freshnessBonus (stage : Z) : Q :=
  if stage =? 1 then 20%Q else 0%Q.


Definition score (now : time) (item : FlashCard) : Q :=
  (base (stage_id item) + overdueBonus now (next_review_time item)
   + wrongPenaltyBoost (correct item) + freshnessBonus (stage_id item))%Q.

End Spec.

(** The row [fc] as the main [UPDATE] of a review leaves it, before the
    score is refreshed; used to state what a review does to a row. *)
Definition reviewed (clk : clock) (result : string) (fc : FlashCard) : FlashCard :=
  if is_non_answer result then
    set_review_count (review_count fc + 1)
      (set_last_reviewed_at (Some (clk 0%nat)) fc)
  else
    let new_interval := _calculate_next_interval fc result in
    let next_review := clk 0%nat + timedelta_hours new_interval in
    if (result =? "True")%string then
      set_interval_hours new_interval
        (set_correct_count (correct_count fc + 1)
           (set_review_count (review_count fc + 1)
              (set_next_review_time (Some next_review)
                 (set_last_reviewed_at (Some (clk 1%nat))
                    (set_correct (Some true)
                       (set_stage_id (Z.min (stage_id fc + 1) 4) fc))))))
    else if (result =? "False")%string then
      set_interval_hours new_interval
        (set_wrong_count (wrong_count fc + 1)
           (set_review_count (review_count fc + 1)
              (set_next_review_time (Some next_review)
                 (set_last_reviewed_at (Some (clk 1%nat))
                    (set_correct (Some false) fc)))))
    else fc.

(** The last recorded answer was wrong: [flashcard.correct == False]. *)
Definition last_incorrect (r : FlashCard) : bool :=
  match correct r with
  | Some false => true
  | _ => false
  end.

(** ** Sample rows

    Instants are microseconds: 3600000000 is one hour. *)

(** A stage-2 card, last answered correctly, due at hour 2. *)
Definition demo_card : FlashCard :=
  mkFlashCard 1 "drip" "to fall in drops" "" "" 2 (Some true)
    (Some 0) None (Some 7200000000) 3 2 1 80 2.

(** Two stage-2 cards at hour 2: [early_card] is an hour overdue and was
    last answered correctly, [late_wrong_card] is half an hour overdue and
    was last answered wrongly. *)
Definition early_card : FlashCard :=
  mkFlashCard 1 "ebb" "to flow back" "" "" 2 (Some true)
    (Some 0) None (Some 3600000000) 1 1 0 80 2.

Definition late_wrong_card : FlashCard :=
  mkFlashCard 2 "flow" "to move along" "" "" 2 (Some false)
    (Some 0) None (Some 5400000000) 1 0 1 80 1.

(** A stage-3 card whose word and meaning are also built-in defaults,
    and a second card with the same word. *)
Definition apple_card : FlashCard :=
  mkFlashCard 1 "apple" "a red fruit that grows on trees" "" "" 3 None
    (Some 0) None (Some 1800000000) 0 0 0 100 (1 # 2).

Definition apple_twin : FlashCard :=
  mkFlashCard 2 "apple" "the fruit of the apple tree" "" "" 1 None
    (Some 0) None (Some 1800000000) 0 0 0 100 (1 # 2).

(** The oracle that leaves a list in the order it has. *)
Definition keep_order {A : Type} (l : list A) : list A := l.

(** * The rest of the engine

    The functions of [database_manager.py], [reviewer_module.py] and
    [reviewer_schedule_maker.py] around the ones above. *)

(** ** Python dictionaries

    A [dict] in insertion order: assigning to a key that is there keeps
    its place, a new key goes last. *)
Section Dict.
Context {K V : Type} (eqb : K -> K -> bool).

Fixpoint dict_get (k : K) (d : list (K * V)) : option V :=
  match d with
  | [] => None
  | (k', v) :: rest => if eqb k' k then Some v else dict_get k rest
  end.

Fixpoint dict_set (k : K) (v : V) (d : list (K * V)) : list (K * V) :=
  match d with
  | [] => [(k, v)]
  | (k', v') :: rest =>
      if eqb k' k then (k, v) :: rest else (k', v') :: dict_set k v rest
  end.
End Dict.

(** ** Authoring: [create_flashcard] *)

(** The largest rowid of the table, 0 for an empty table. *)
Definition last_rowid (db : store) : Z := fold_right Z.max 0 (map id db).

(** [AUTOINCREMENT]: one more than the largest rowid the table ever had,
    which SQLite keeps as [seq] in [sqlite_sequence]. *)
Definition next_rowid (seq : Z) (db : store) : Z :=
  Z.max seq (last_rowid db) + 1.

(** [flashcard_data] is the dict of the form; ['word'] and ['meaning'] are
    read by subscript (a missing key is a [KeyError], nothing is written),
    ['example'] and ['tag'] with [.get(key, '')].  Returns the table and
    [cursor.lastrowid]. *)
Definition create_flashcard (seq : Z) (current_time : time)
  (flashcard_data : list (string * string)) (db : store)
  : outcome (store * Z) :=
  let first_review_time := current_time + timedelta_hours (1 # 2) in
  match dict_get String.eqb "word" flashcard_data,
        dict_get String.eqb "meaning" flashcard_data with
  | Some w, Some m =>
      let get_or_empty key :=
        match dict_get String.eqb key flashcard_data with
        | Some v => v
        | None => ""
        end in
      let new_id := next_rowid seq db in
      Returned
        (db ++ [mkFlashCard new_id w m (get_or_empty "example")
                  (get_or_empty "tag") 1 None (Some current_time) None
                  (Some first_review_time) 0 0 0 100 (1 # 2)],
         new_id)
  | _, _ => Raised KeyError db
  end.

(** ** The deprecated sampler: [get_random_words_for_options] *)

(** [for word in defaults: if word not in words and len(words) < count] *)
Fixpoint fill_defaults (count : Z) (defaults : list string) (ws : list string)
  : list string :=
  match defaults with
  | [] => ws
  | w :: rest =>
      if negb (mem_string w ws) && (Z.of_nat (List.length ws) <? count)
      then fill_defaults count rest (ws ++ [w])
      else fill_defaults count rest ws
  end.

(** The [while] loop runs its body at most once: it ends in [break]. *)
Definition get_random_words_for_options
  (sql_random : list FlashCard -> list FlashCard)
  (db : store) (exclude_id : Z) (count : Z) : list string :=
  let words :=
    map word
      (sql_limit count
         (sql_random (filter (fun r => negb (id r =? exclude_id)) db))) in
  let words :=
    if Z.of_nat (List.length words) <? count then
      fill_defaults count
        ["apple"; "book"; "cat"; "dog"; "elephant"; "flower"; "guitar"; "house"]
        words
    else words in
  slice_to count words.

(** ** The session pools: [prepare_contextual_words] and
    [prepare_contextual_meanings] *)

(** The loop over the batch: the card at position [k] of stage [stage]
    contributes [sample k] of its id. *)
Fixpoint collect_contextual (sample : nat -> Z -> list string) (stage : Z)
  (k : nat) (flashcards : list FlashCard) : list string :=
  match flashcards with
  | [] => []
  | flashcard :: rest =>
      if stage_id flashcard =? stage
      then sample k (id flashcard) ++ collect_contextual sample stage (S k) rest
      else collect_contextual sample stage (S k) rest
  end.

(** [list(set(contextual_words))]: the distinct entries, in the order
    [set_order] that the set happens to iterate in.  The samplers are
    asked for 5 entries; the card at position [k] draws with the oracles
    [sql_random k] and [shuffle k]. *)
Definition prepare_contextual_words
  (sql_random : nat -> list FlashCard -> list FlashCard)
  (shuffle : nat -> list string -> list string)
  (set_order : list string -> list string)
  (db : store) (flashcards : list FlashCard) : list string :=
  set_order
    (nodup string_dec
       (collect_contextual
          (fun k exclude_id =>
             get_contextual_words_for_stage3 (sql_random k) (shuffle k)
               db exclude_id 5)
          3 0%nat flashcards)).

Definition prepare_contextual_meanings
  (sql_random : nat -> list FlashCard -> list FlashCard)
  (shuffle : nat -> list string -> list string)
  (set_order : list string -> list string)
  (db : store) (flashcards : list FlashCard) : list string :=
  set_order
    (nodup string_dec
       (collect_contextual
          (fun k exclude_id =>
             get_contextual_meanings_for_stage2 (sql_random k) (shuffle k)
               db exclude_id 5)
          2 0%nat flashcards)).

(** ** The reviewer's session record

    The three fields of [ReviewerModule] that carry the session; the
    widgets and timers are left to the window system. *)
Record ReviewerState := mkReviewer {
  current_flashcards : list FlashCard;
  current_index : nat;
  results : list (Z * string)
}.

(** The record as [__init__] leaves it. *)
Definition idle_reviewer : ReviewerState := mkReviewer [] 0%nat [].

(** [start_review]: an empty batch is turned away and the record stays
    as it is; otherwise the record is reset for the batch. *)
Definition start_review (flashcards : list FlashCard) (st : ReviewerState)
  : ReviewerState :=
  match flashcards with
  | [] => st
  | _ => mkReviewer flashcards 0%nat []
  end.

(** [record_result]: the answer is filed under the current card's id; an
    answered card of stage 2 to 4 gets its feedback shown first and the
    index stays until [hide_feedback]. *)
Definition record_result (result : string) (st : ReviewerState) : ReviewerState :=
  match nth_error (current_flashcards st) (current_index st) with
  | Some current_flashcard =>
      let results' :=
        dict_set Z.eqb (id current_flashcard) result (results st) in
      if (1 <? stage_id current_flashcard) &&
         ((result =? "True") || (result =? "False"))%string
      then mkReviewer (current_flashcards st) (current_index st) results'
      else mkReviewer (current_flashcards st) (S (current_index st)) results'
  | None => st
  end.

Definition hide_feedback (st : ReviewerState) : ReviewerState :=
  mkReviewer (current_flashcards st) (S (current_index st)) (results st).

(** [mark_remaining_as_timeout]: the cards after the current one. *)
Definition mark_remaining_as_timeout (st : ReviewerState) : ReviewerState :=
  mkReviewer (current_flashcards st) (current_index st)
    (fold_left (fun d remaining_flashcard =>
                  dict_set Z.eqb (id remaining_flashcard) "TIMEOUT" d)
       (skipn (S (current_index st)) (current_flashcards st))
       (results st)).

Definition handle_timeout (st : ReviewerState) : ReviewerState :=
  match nth_error (current_flashcards st) (current_index st) with
  | Some current_flashcard =>
      mark_remaining_as_timeout
        (mkReviewer (current_flashcards st) (current_index st)
           (dict_set Z.eqb (id current_flashcard) "TIMEOUT" (results st)))
  | None => st
  end.

Definition handle_escape_key (st : ReviewerState) : ReviewerState :=
  match nth_error (current_flashcards st) (current_index st) with
  | Some current_flashcard =>
      mark_remaining_as_timeout
        (mkReviewer (current_flashcards st) (current_index st)
           (dict_set Z.eqb (id current_flashcard) "ESCAPE" (results st)))
  | None => st
  end.

(** [closeEvent]: the state it leaves and the results it emits, if any. *)
Definition closeEvent (st : ReviewerState)
  : ReviewerState * option (list (Z * string)) :=
  let st1 :=
    match nth_error (current_flashcards st) (current_index st) with
    | Some current_flashcard =>
        let st0 :=
          match dict_get Z.eqb (id current_flashcard) (results st) with
          | Some _ => st
          | None =>
              mkReviewer (current_flashcards st) (current_index st)
                (dict_set Z.eqb (id current_flashcard) "TIMEOUT" (results st))
          end in
        mark_remaining_as_timeout st0
    | None => st
    end in
  (mkReviewer (current_flashcards st1) 0%nat (results st1),
   match results st1 with [] => None | _ => Some (results st1) end).

(** ** The schedule maker *)

(** [postpone_review]: every pending card is filed as a timeout. *)
Definition postpone_review (pending_flashcards : list FlashCard)
  : list (Z * string) :=
  fold_left (fun timeout_results flashcard =>
               dict_set Z.eqb (id flashcard) "TIMEOUT" timeout_results)
    pending_flashcards [].

(** [update_flashcard_results]: the results are applied in the order of
    the dict, the call number [k] with the clock [clks k]; an exception
    ends the loop, is logged, and the table stays as it then is. *)
Fixpoint update_flashcard_results (clks : nat -> clock) (db : store)
  (results : list (Z * string)) : store :=
  match results with
  | [] => db
  | (flashcard_id, result) :: rest =>
      match update_flashcard_after_review (clks 0%nat) db flashcard_id result with
      | Returned db' => update_flashcard_results (fun k => clks (S k)) db' rest
      | Raised _ db' => db'
      end
  end.

(** [self.stage_timeouts] as [__init__] sets it, and [default_timeout]. *)
Definition initial_stage_timeouts : list (Z * Z) :=
  [(1, 20); (2, 30); (3, 20); (4, 30)].

Definition default_timeout : Z := 10.

(** [set_stage_timeout]: a stage outside 1..4 is refused with a warning. *)
Definition set_stage_timeout (stage_id timeout_seconds : Z)
  (stage_timeouts : list (Z * Z)) : list (Z * Z) :=
  if (1 <=? stage_id) && (stage_id <=? 4)
  then dict_set Z.eqb stage_id timeout_seconds stage_timeouts
  else stage_timeouts.

(** [self.stage_timeouts.get(stage_id, self.default_timeout)] *)
Definition get_stage_timeout (stage_id : Z) (stage_timeouts : list (Z * Z)) : Z :=
  match dict_get Z.eqb stage_id stage_timeouts with
  | Some t => t
  | None => default_timeout
  end.

(** The columns no review writes. *)
Definition content_kept (r r' : FlashCard) : Prop :=
  (id r', word r', meaning r', example r', tag r', created_at r')
  = (id r, word r, meaning r, example r, tag r, created_at r).

(** Every card shown before the current one has a result on file. *)
Definition answered_before (st : ReviewerState) : Prop :=
  forall (j : nat) (fc : FlashCard),
    (j < current_index st)%nat ->
    nth_error (current_flashcards st) j = Some fc ->
    dict_get Z.eqb (id fc) (results st) <> None.

(** Every card of the batch has a result on file. *)
Definition all_answered (st : ReviewerState) : Prop :=
  forall fc : FlashCard,
    In fc (current_flashcards st) ->
    dict_get Z.eqb (id fc) (results st) <> None.

(** A series of [set_stage_timeout] calls, first to last. *)
Definition configure_timeouts (calls : list (Z * Z))
  (stage_timeouts : list (Z * Z)) : list (Z * Z) :=
  fold_left (fun m call => set_stage_timeout (fst call) (snd call) m)
    calls stage_timeouts.

(** A clock that starts at [start] and advances by [step] from one
    reading to the next. *)
Definition ticking (start step : Z) : clock :=
  fun k => start + step * Z.of_nat k.

(** Two more stage-2 cards last answered correctly, like [early_card]:
    [later_card] falls due half an hour after it, [close_card] one
    microsecond after it. *)
Definition later_card : FlashCard :=
  mkFlashCard 3 "tide" "the rise and fall of the sea" "" "" 2 (Some true)
    (Some 0) None (Some 5400000000) 1 1 0 80 2.

Definition close_card : FlashCard :=
  mkFlashCard 4 "surf" "waves breaking on the shore" "" "" 2 (Some true)
    (Some 0) None (Some 3600000001) 1 1 0 80 2.

(** * Properties *)

(** ** The table: lookups and writes *)

Lemma stage_check_range (s : Z) : stage_check s = true <-> 1 <= s <= 4.
Proof.
  unfold stage_check. rewrite !orb_true_iff, !Z.eqb_eq. lia.
Qed.

Lemma get_some_in (db : store) (i : Z) (fc : FlashCard) :
  get_flashcard_by_id db i = Some fc -> In fc db /\ id fc = i.
Proof.
  unfold get_flashcard_by_id. intros H.
  apply find_some in H. destruct H as [Hin Hid].
  apply Z.eqb_eq in Hid. auto.
Qed.

Lemma check_ok_get (db : store) (i : Z) (fc : FlashCard) :
  check_ok db -> get_flashcard_by_id db i = Some fc ->
  stage_check (stage_id fc) = true.
Proof.
  intros Hok Hget. apply get_some_in in Hget. destruct Hget as [Hin _].
  unfold check_ok in Hok. rewrite Forall_forall in Hok. auto.
Qed.

(** A write that keeps the key is seen through a lookup of that key. *)
Lemma get_update_where (i : Z) (f : FlashCard -> FlashCard) (db : store) :
  (forall r, id (f r) = id r) ->
  get_flashcard_by_id (update_where i f db) i
  = option_map f (get_flashcard_by_id db i).
Proof.
  intros Hid. unfold get_flashcard_by_id, update_where.
  induction db as [|r db IH]; simpl; [reflexivity|].
  destruct (id r =? i) eqn:E.
  - rewrite Hid, E. reflexivity.
  - rewrite E. exact IH.
Qed.

(** Rows under another key are out of reach of the write. *)
Lemma get_update_where_other (i j : Z) (f : FlashCard -> FlashCard) (db : store) :
  (forall r, id (f r) = id r) -> i <> j ->
  get_flashcard_by_id (update_where i f db) j = get_flashcard_by_id db j.
Proof.
  intros Hid Hij. unfold get_flashcard_by_id, update_where.
  induction db as [|r db IH]; simpl; [reflexivity|].
  destruct (id r =? i) eqn:E.
  - rewrite Hid. apply Z.eqb_eq in E.
    destruct (id r =? j) eqn:E'; [apply Z.eqb_eq in E'; lia | exact IH].
  - destruct (id r =? j); [reflexivity | exact IH].
Qed.

(** ** The scorer *)

Lemma score_defined (now : time) (fc : FlashCard) :
  stage_check (stage_id fc) = true ->
  exists s, _calculate_priority_score now fc = Some s.
Proof.
  intros H. apply stage_check_range in H.
  unfold _calculate_priority_score, stage_priority.
  destruct (stage_id fc =? 1) eqn:E1; [eauto|].
  destruct (stage_id fc =? 2) eqn:E2; [eauto|].
  destruct (stage_id fc =? 3) eqn:E3; [eauto|].
  destruct (stage_id fc =? 4) eqn:E4; [eauto|].
  apply Z.eqb_neq in E1, E2, E3, E4. lia.
Qed.

(** The scorer reads the stage, the last outcome and the due time only. *)
Lemma score_ext (now : time) (a b : FlashCard) :
  stage_id a = stage_id b -> correct a = correct b ->
  next_review_time a = next_review_time b ->
  _calculate_priority_score now a = _calculate_priority_score now b.
Proof.
  intros Hs Hc Hn. unfold _calculate_priority_score.
  rewrite Hs, Hc, Hn. reflexivity.
Qed.

Lemma update_priority_present (now : time) (i : Z) (db : store) (fc : FlashCard) :
  get_flashcard_by_id db i = Some fc ->
  stage_check (stage_id fc) = true ->
  exists s,
    _calculate_priority_score now fc = Some s /\
    _update_priority_score now i db
    = Returned (update_where i (set_priority_score s) db).
Proof.
  intros Hget Hok. destruct (score_defined now fc Hok) as [s Hs].
  exists s. split; [exact Hs|].
  unfold _update_priority_score. rewrite Hget, Hs. reflexivity.
Qed.

(** ** One review of a row that is there *)

Lemma update_then_score (now : time) (i : Z) (f : FlashCard -> FlashCard)
  (db : store) (fc : FlashCard) :
  (forall r, id (f r) = id r) ->
  get_flashcard_by_id db i = Some fc ->
  stage_check (stage_id (f fc)) = true ->
  exists db' s,
    _update_priority_score now i (update_where i f db) = Returned db' /\
    _calculate_priority_score now (f fc) = Some s /\
    get_flashcard_by_id db' i = Some (set_priority_score s (f fc)) /\
    (forall j, j <> i -> get_flashcard_by_id db' j = get_flashcard_by_id db j).
Proof.
  intros Hid Hget Hok.
  assert (Hget1 : get_flashcard_by_id (update_where i f db) i = Some (f fc)).
  { rewrite get_update_where by exact Hid. rewrite Hget. reflexivity. }
  destruct (update_priority_present now i _ _ Hget1 Hok) as [s [Hs Hupd]].
  exists (update_where i (set_priority_score s) (update_where i f db)), s.
  split; [exact Hupd|]. split; [exact Hs|]. split.
  - rewrite get_update_where by reflexivity. rewrite Hget1. reflexivity.
  - intros j Hj.
    rewrite get_update_where_other by (auto; reflexivity).
    apply get_update_where_other; auto.
Qed.

Lemma update_where_id (i : Z) (db : store) :
  update_where i (fun r => r) db = db.
Proof.
  unfold update_where. induction db as [|r db IH]; simpl; [reflexivity|].
  rewrite IH. destruct (id r =? i); reflexivity.
Qed.

(** The whole effect of one review on the row it addresses: the call
    returns, the row is [reviewed] with a fresh score, the other keys keep
    their rows. *)
Lemma review_step (clk : clock) (db : store) (i : Z) (result : string)
  (fc : FlashCard) :
  get_flashcard_by_id db i = Some fc ->
  stage_check (stage_id fc) = true ->
  exists db' s,
    update_flashcard_after_review clk db i result = Returned db' /\
    get_flashcard_by_id db' i
    = Some (set_priority_score s (reviewed clk result fc)) /\
    (forall j, j <> i -> get_flashcard_by_id db' j = get_flashcard_by_id db j).
Proof.
  intros Hget Hok.
  unfold update_flashcard_after_review, reviewed, is_non_answer.
  rewrite Hget.
  destruct (result =? "TIMEOUT")%string eqn:Et; simpl orb; cbv iota.
  { destruct (update_then_score (clk 1%nat) i
                (fun r => set_review_count (review_count fc + 1)
                            (set_last_reviewed_at (Some (clk 0%nat)) r))
                db fc) as [db' [s [H1 [_ [H2 H3]]]]]; auto.
    exists db', s. auto. }
  destruct (result =? "ESCAPE")%string eqn:Ee; cbv iota.
  { destruct (update_then_score (clk 1%nat) i
                (fun r => set_review_count (review_count fc + 1)
                            (set_last_reviewed_at (Some (clk 0%nat)) r))
                db fc) as [db' [s [H1 [_ [H2 H3]]]]]; auto.
    exists db', s. auto. }
  destruct (result =? "True")%string eqn:ET.
  { assert (Hnew : stage_check (Z.min (stage_id fc + 1) 4) = true).
    { apply stage_check_range. apply stage_check_range in Hok. lia. }
    rewrite Hnew.
    match goal with
    | |- context [update_where i ?f db] =>
        destruct (update_then_score (clk 2%nat) i f db fc)
          as [db' [s [H1 [_ [H2 H3]]]]]; auto
    end.
    exists db', s. auto. }
  destruct (result =? "False")%string eqn:EF.
  { match goal with
    | |- context [update_where i ?f db] =>
        destruct (update_then_score (clk 2%nat) i f db fc)
          as [db' [s [H1 [_ [H2 H3]]]]]; auto
    end.
    exists db', s. auto. }
  destruct (update_then_score (clk 2%nat) i (fun r => r) db fc)
    as [db' [s [H1 [_ [H2 H3]]]]]; auto.
  rewrite update_where_id in H1.
  exists db', s. auto.
Qed.

Lemma reviewed_stage (clk : clock) (result : string) (fc : FlashCard) :
  stage_id (reviewed clk result fc)
  = if (result =? "True")%string then Z.min (stage_id fc + 1) 4 else stage_id fc.
Proof.
  unfold reviewed, is_non_answer.
  destruct (result =? "TIMEOUT")%string eqn:Et.
  { apply String.eqb_eq in Et. subst result. reflexivity. }
  destruct (result =? "ESCAPE")%string eqn:Ee.
  { apply String.eqb_eq in Ee. subst result. reflexivity. }
  simpl orb. cbv iota.
  destruct (result =? "True")%string; [reflexivity|].
  destruct (result =? "False")%string; reflexivity.
Qed.

Lemma reviewed_stage_ok (clk : clock) (result : string) (fc : FlashCard) :
  stage_check (stage_id fc) = true ->
  stage_check (stage_id (reviewed clk result fc)) = true.
Proof.
  rewrite !stage_check_range, reviewed_stage.
  destruct (result =? "True")%string; lia.
Qed.

(** A recorded outcome tag moves the three counters as the transition
    table says. *)
Lemma reviewed_counters (clk : clock) (result : string) (fc : FlashCard) :
  is_outcome_tag result = true ->
  review_count (reviewed clk result fc) = review_count fc + 1 /\
  correct_count (reviewed clk result fc) + wrong_count (reviewed clk result fc)
  + (if is_non_answer result then 1 else 0)
  = correct_count fc + wrong_count fc + 1.
Proof.
  unfold is_outcome_tag, reviewed, is_non_answer.
  destruct (result =? "TIMEOUT")%string eqn:Et.
  { intros _. rewrite orb_true_l. simpl. lia. }
  destruct (result =? "ESCAPE")%string eqn:Ee.
  { intros _. simpl. lia. }
  simpl orb. cbv iota.
  destruct (result =? "True")%string eqn:ET.
  { intros _. simpl. lia. }
  destruct (result =? "False")%string eqn:EF.
  { intros _. simpl. lia. }
  simpl. discriminate.
Qed.

(** ** Claims on the review state machine *)

(** C1. Due-time invariance under non-answers: for a flashcard present in
    the store, the results "TIMEOUT" and "ESCAPE" leave [next_review_time]
    exactly as it was, and also [stage_id], the [correct] flag,
    [correct_count], [wrong_count] and [interval_hours]; [review_count]
    grows by exactly 1.  The content columns and [created_at] stay as well:
    only [last_reviewed_at] and the cached [priority_score] may move. *)
Theorem timeout_escape_leave_due_time (clk : clock) (db : store) (i : Z)
  (result : string) (fc : FlashCard) :
  check_ok db ->
  get_flashcard_by_id db i = Some fc ->
  result = "TIMEOUT" \/ result = "ESCAPE" ->
  exists db' fc',
    update_flashcard_after_review clk db i result = Returned db' /\
    get_flashcard_by_id db' i = Some fc' /\
    next_review_time fc' = next_review_time fc /\
    stage_id fc' = stage_id fc /\
    correct fc' = correct fc /\
    correct_count fc' = correct_count fc /\
    wrong_count fc' = wrong_count fc /\
    interval_hours fc' = interval_hours fc /\
    review_count fc' = review_count fc + 1 /\
    (id fc', word fc', meaning fc', example fc', tag fc', created_at fc')
    = (id fc, word fc, meaning fc, example fc, tag fc, created_at fc).
Proof.
  intros Hok Hget Hres.
  pose proof (check_ok_get _ _ _ Hok Hget) as Hst.
  destruct (review_step clk db i result fc Hget Hst) as [db' [s [Hret [Hrow _]]]].
  exists db', (set_priority_score s (reviewed clk result fc)).
  split; [exact Hret|]. split; [exact Hrow|].
  destruct Hres as [-> | ->]; cbn; repeat split; reflexivity.
Qed.

Lemma check_ok_demo : check_ok [demo_card].
Proof. repeat constructor. Qed.

Lemma timeout_escape_leave_due_time_witness :
  exists db' fc',
    update_flashcard_after_review (frozen 9000000000) [demo_card] 1 "TIMEOUT"
    = Returned db' /\
    get_flashcard_by_id db' 1 = Some fc' /\
    next_review_time fc' = Some 7200000000 /\
    review_count fc' = 4.
Proof.
  destruct (timeout_escape_leave_due_time (frozen 9000000000) [demo_card] 1
              "TIMEOUT" demo_card check_ok_demo eq_refl (or_introl eq_refl))
    as [db' [fc' [H1 [H2 [H3 [_ [_ [_ [_ [_ [H4 _]]]]]]]]]]].
  exists db', fc'. repeat split; assumption.
Defined.

(** A row that is there and passes the [CHECK] is still there, and still
    passes it, after any sequence of reviews. *)
Lemma review_sequence_runs (steps : list (clock * string)) :
  forall (db : store) (i : Z) (fc : FlashCard),
    get_flashcard_by_id db i = Some fc ->
    stage_check (stage_id fc) = true ->
    exists db' fc',
      review_sequence db i steps = Returned db' /\
      get_flashcard_by_id db' i = Some fc' /\
      stage_check (stage_id fc') = true /\
      stage_id fc <= stage_id fc'.
Proof.
  induction steps as [|[clk result] rest IH]; intros db i fc Hget Hok.
  - exists db, fc. simpl. repeat split; auto. lia.
  - destruct (review_step clk db i result fc Hget Hok) as [db1 [s [Hret [Hrow _]]]].
    assert (Hok1 : stage_check
                     (stage_id (set_priority_score s (reviewed clk result fc)))
                   = true).
    { apply (reviewed_stage_ok clk result fc Hok). }
    destruct (IH db1 i _ Hrow Hok1) as [db' [fc' [Hseq [Hget' [Hok' Hle]]]]].
    exists db', fc'. simpl. rewrite Hret.
    repeat split; auto.
    simpl in Hle. rewrite reviewed_stage in Hle.
    apply stage_check_range in Hok.
    destruct (result =? "True")%string; lia.
Qed.

(** C2. Stage monotonicity.  After any sequence of reviews of a flashcard
    of the store its stage is in {1,2,3,4}; one more review with the result
    "True" sets the stage to [min (stage + 1) 4], with any other result
    (incorrect, timeout, cancel) it leaves the stage as it is; so each step
    moves the stage by at most 1, never downwards, and the stage stays in
    {1,2,3,4}. *)
Theorem stage_monotone (db : store) (i : Z) (fc : FlashCard)
  (steps : list (clock * string)) (clk : clock) (result : string) :
  check_ok db ->
  get_flashcard_by_id db i = Some fc ->
  exists db1 fc1 db2 fc2,
    review_sequence db i steps = Returned db1 /\
    get_flashcard_by_id db1 i = Some fc1 /\
    update_flashcard_after_review clk db1 i result = Returned db2 /\
    get_flashcard_by_id db2 i = Some fc2 /\
    1 <= stage_id fc1 <= 4 /\
    1 <= stage_id fc2 <= 4 /\
    (result = "True" -> stage_id fc2 = Z.min (stage_id fc1 + 1) 4) /\
    (result <> "True" -> stage_id fc2 = stage_id fc1) /\
    stage_id fc1 <= stage_id fc2 <= stage_id fc1 + 1.
Proof.
  intros Hok Hget.
  pose proof (check_ok_get _ _ _ Hok Hget) as Hst.
  destruct (review_sequence_runs steps db i fc Hget Hst)
    as [db1 [fc1 [Hseq [Hget1 [Hok1 _]]]]].
  destruct (review_step clk db1 i result fc1 Hget1 Hok1)
    as [db2 [s [Hret [Hrow _]]]].
  exists db1, fc1, db2, (set_priority_score s (reviewed clk result fc1)).
  pose proof (reviewed_stage_ok clk result fc1 Hok1) as Hok2.
  apply stage_check_range in Hok1, Hok2.
  pose proof (reviewed_stage clk result fc1) as Hs.
  change (stage_id (set_priority_score s (reviewed clk result fc1)))
    with (stage_id (reviewed clk result fc1)).
  repeat split; auto; try lia.
  - intros ->. exact Hs.
  - intros Hne. apply String.eqb_neq in Hne. rewrite Hne in Hs. exact Hs.
  - destruct (result =? "True")%string; lia.
  - destruct (result =? "True")%string; lia.
Qed.

Lemma stage_monotone_witness :
  exists db1 fc1 db2 fc2,
    review_sequence [demo_card] 1
      [(frozen 9000000000, "True"); (frozen 9100000000, "False")]
    = Returned db1 /\
    get_flashcard_by_id db1 1 = Some fc1 /\
    update_flashcard_after_review (frozen 9200000000) db1 1 "True"
    = Returned db2 /\
    get_flashcard_by_id db2 1 = Some fc2 /\
    1 <= stage_id fc2 <= 4 /\
    stage_id fc2 = Z.min (stage_id fc1 + 1) 4.
Proof.
  destruct (stage_monotone [demo_card] 1 demo_card
              [(frozen 9000000000, "True"); (frozen 9100000000, "False")]
              (frozen 9200000000) "True" check_ok_demo eq_refl)
    as [db1 [fc1 [db2 [fc2 [H1 [H2 [H3 [H4 [_ [H5 [H6 _]]]]]]]]]]].
  exists db1, fc1, db2, fc2. repeat split; auto; try apply H5.
Defined.

(** C6. Counter conservation.  After N reviews of one item with results
    drawn from "True", "False", "TIMEOUT", "ESCAPE", [review_count] is its
    initial value plus N whatever the mix; and the balance
    [review_count = correct_count + wrong_count + k], [k] counting the
    timeouts and cancels so far, is carried over every update. *)
Theorem counter_conservation (steps : list (clock * string)) :
  forall (db : store) (i : Z) (fc : FlashCard),
    check_ok db ->
    get_flashcard_by_id db i = Some fc ->
    Forall (fun st => is_outcome_tag (snd st) = true) steps ->
    exists db' fc',
      review_sequence db i steps = Returned db' /\
      get_flashcard_by_id db' i = Some fc' /\
      review_count fc' = review_count fc + Z.of_nat (List.length steps) /\
      forall k : Z,
        review_count fc = correct_count fc + wrong_count fc + k ->
        review_count fc'
        = correct_count fc' + wrong_count fc' + (k + count_non_answers steps).
Proof.
  intros db i fc Hok Hget.
  pose proof (check_ok_get _ _ _ Hok Hget) as Hst. clear Hok.
  revert db fc Hget Hst.
  induction steps as [|[clk result] rest IH]; intros db fc Hget Hst Htags.
  - exists db, fc. simpl. repeat split; auto; lia.
  - inversion Htags as [|x l Htag Hrest]; subst. simpl in Htag.
    destruct (review_step clk db i result fc Hget Hst) as [db1 [s [Hret [Hrow _]]]].
    pose proof (reviewed_stage_ok clk result fc Hst) as Hst1.
    destruct (IH db1 _ Hrow Hst1 Hrest) as [db' [fc' [Hseq [Hget' [Hrc Hbal]]]]].
    destruct (reviewed_counters clk result fc Htag) as [Hc1 Hc2].
    exists db', fc'. simpl review_sequence. rewrite Hret.
    split; [exact Hseq|]. split; [exact Hget'|]. split.
    + rewrite Hrc. cbn [review_count set_priority_score]. rewrite Hc1.
      cbn [List.length]. lia.
    + intros k Hk.
      specialize (Hbal (k + (if is_non_answer result then 1 else 0))).
      cbn [review_count correct_count wrong_count set_priority_score] in Hbal.
      cbn [count_non_answers].
      rewrite Hbal; lia.
Qed.

Lemma counter_conservation_witness :
  exists db' fc',
    review_sequence [demo_card] 1
      [(frozen 9000000000, "TIMEOUT"); (frozen 9100000000, "True");
       (frozen 9200000000, "ESCAPE"); (frozen 9300000000, "False")]
    = Returned db' /\
    get_flashcard_by_id db' 1 = Some fc' /\
    review_count fc' = 7 /\
    review_count fc' = correct_count fc' + wrong_count fc' + 2.
Proof.
  destruct (counter_conservation
              [(frozen 9000000000, "TIMEOUT"); (frozen 9100000000, "True");
               (frozen 9200000000, "ESCAPE"); (frozen 9300000000, "False")]
              [demo_card] 1 demo_card check_ok_demo eq_refl)
    as [db' [fc' [H1 [H2 [H3 H4]]]]].
  { repeat constructor. }
  exists db', fc'. repeat split; auto.
  exact (H4 0 eq_refl).
Defined.

(** C7, as the code has it.  For an id that is not in the store the call
    returns normally, whatever the result string: no error reaches the
    caller, and the store is left unchanged. *)
Theorem missing_id_is_ignored (clk : clock) (db : store) (i : Z) (result : string) :
  get_flashcard_by_id db i = None ->
  update_flashcard_after_review clk db i result = Returned db.
Proof.
  intros Hnone. unfold update_flashcard_after_review. rewrite Hnone. reflexivity.
Qed.

Lemma missing_id_is_ignored_witness :
  update_flashcard_after_review (frozen 9000000000) [demo_card] 42 "True"
  = Returned [demo_card].
Proof.
  apply (missing_id_is_ignored (frozen 9000000000) [demo_card] 42 "True").
  reflexivity.
Defined.

(** C7 as stated fails: for the id 42, absent from the store, the call
    returns and raises nothing. *)
Lemma missing_id_raises_nothing :
  get_flashcard_by_id [demo_card] 42 = None /\
  update_flashcard_after_review (frozen 9000000000) [demo_card] 42 "True"
  = Returned [demo_card] /\
  forall e db',
    update_flashcard_after_review (frozen 9000000000) [demo_card] 42 "True"
    <> Raised e db'.
Proof.
  split; [reflexivity|]. split; [reflexivity|].
  intros e db' H. discriminate H.
Qed.

(** C10. An unrecognised result string, for an id of the store, leaves
    [stage_id], the [correct] flag, [review_count], [correct_count],
    [wrong_count], [next_review_time], [last_reviewed_at] and
    [interval_hours] unchanged (no review is counted): the call only
    writes the score, recomputed from the row as it was. *)
Theorem unknown_result_only_rescored (clk : clock) (db : store) (i : Z)
  (result : string) (fc : FlashCard) :
  check_ok db ->
  get_flashcard_by_id db i = Some fc ->
  is_outcome_tag result = false ->
  exists s fc',
    _calculate_priority_score (clk 2%nat) fc = Some s /\
    update_flashcard_after_review clk db i result
    = Returned (update_where i (set_priority_score s) db) /\
    get_flashcard_by_id (update_where i (set_priority_score s) db) i = Some fc' /\
    fc' = set_priority_score s fc /\
    stage_id fc' = stage_id fc /\
    correct fc' = correct fc /\
    review_count fc' = review_count fc /\
    correct_count fc' = correct_count fc /\
    wrong_count fc' = wrong_count fc /\
    next_review_time fc' = next_review_time fc /\
    last_reviewed_at fc' = last_reviewed_at fc /\
    interval_hours fc' = interval_hours fc.
Proof.
  intros Hok Hget Htag.
  pose proof (check_ok_get _ _ _ Hok Hget) as Hst.
  destruct (update_priority_present (clk 2%nat) i db fc Hget Hst) as [s [Hs Hupd]].
  exists s, (set_priority_score s fc).
  unfold is_outcome_tag in Htag.
  rewrite !orb_false_iff in Htag. destruct Htag as [[[HT HF] Ht] He].
  split; [exact Hs|]. split.
  { unfold update_flashcard_after_review. rewrite Hget, Ht, He, HT, HF.
    exact Hupd. }
  split.
  { rewrite get_update_where by reflexivity. rewrite Hget. reflexivity. }
  repeat split; reflexivity.
Qed.

Lemma unknown_result_only_rescored_witness :
  exists s fc',
    update_flashcard_after_review (frozen 9000000000) [demo_card] 1 "SKIPPED"
    = Returned (update_where 1 (set_priority_score s) [demo_card]) /\
    get_flashcard_by_id (update_where 1 (set_priority_score s) [demo_card]) 1
    = Some fc' /\
    review_count fc' = 3 /\
    next_review_time fc' = Some 7200000000.
Proof.
  destruct (unknown_result_only_rescored (frozen 9000000000) [demo_card] 1
              "SKIPPED" demo_card check_ok_demo eq_refl eq_refl)
    as [s [fc' [_ [H1 [H2 [_ [_ [_ [H3 [_ [_ [H4 _]]]]]]]]]]]].
  exists s, fc'. repeat split; assumption.
Defined.

(** ** Claims on the two pure policies *)

(** C3. The interval policy.  For a stage in {1,2,3,4}, with [base] the
    entry of the table {1:0.5, 2:2, 3:24, 4:168} (hours):
    "True" gives [base * 2.0] for a stage of at most 2 and [base * 1.5]
    from stage 3 on, "False" gives [base * 0.5], and "TIMEOUT" and
    "ESCAPE" give [base] itself. *)
Theorem next_interval_policy (fc : FlashCard) :
  1 <= stage_id fc <= 4 ->
  base_intervals (stage_id fc) = Spec.baseInterval (stage_id fc) /\
  (stage_id fc <= 2 ->
   _calculate_next_interval fc "True"
   = (Spec.baseInterval (stage_id fc) * 2)%Q) /\
  (3 <= stage_id fc ->
   _calculate_next_interval fc "True"
   = (Spec.baseInterval (stage_id fc) * (3 # 2))%Q) /\
  _calculate_next_interval fc "False"
  = (Spec.baseInterval (stage_id fc) * (1 # 2))%Q /\
  _calculate_next_interval fc "TIMEOUT" = Spec.baseInterval (stage_id fc) /\
  _calculate_next_interval fc "ESCAPE" = Spec.baseInterval (stage_id fc).
Proof.
  intros Hs.
  assert (Hb : base_intervals (stage_id fc) = Spec.baseInterval (stage_id fc)).
  { unfold base_intervals, Spec.baseInterval.
    destruct (stage_id fc =? 1) eqn:E1; [reflexivity|].
    destruct (stage_id fc =? 2) eqn:E2; [reflexivity|].
    destruct (stage_id fc =? 3) eqn:E3; [reflexivity|].
    destruct (stage_id fc =? 4) eqn:E4; [reflexivity|].
    apply Z.eqb_neq in E1, E2, E3, E4. lia. }
  unfold _calculate_next_interval. cbn [String.eqb Ascii.eqb Bool.eqb].
  rewrite Hb. repeat split.
  - intros Hle. apply Z.leb_le in Hle. rewrite Hle. reflexivity.
  - intros Hge. assert (Hgt : (stage_id fc <=? 2) = false) by (apply Z.leb_gt; lia).
    rewrite Hgt. reflexivity.
Qed.

Lemma next_interval_policy_witness :
  _calculate_next_interval demo_card "True" = (2 * 2)%Q /\
  _calculate_next_interval demo_card "False" = (2 * (1 # 2))%Q /\
  _calculate_next_interval demo_card "TIMEOUT" = 2%Q.
Proof.
  destruct (next_interval_policy demo_card) as [_ [H1 [_ [H2 [H3 _]]]]].
  - simpl. lia.
  - split; [apply H1; simpl; lia|]. split; [exact H2 | exact H3].
Defined.

(** The values of the policy on the four stages, in hours. *)
Lemma next_interval_values (fc : FlashCard) :
  (stage_id fc = 1 ->
   (_calculate_next_interval fc "True" == 1 /\
    _calculate_next_interval fc "False" == 1 # 4)%Q) /\
  (stage_id fc = 2 ->
   (_calculate_next_interval fc "True" == 4 /\
    _calculate_next_interval fc "False" == 1)%Q) /\
  (stage_id fc = 3 ->
   (_calculate_next_interval fc "True" == 36 /\
    _calculate_next_interval fc "False" == 12)%Q) /\
  (stage_id fc = 4 ->
   (_calculate_next_interval fc "True" == 252 /\
    _calculate_next_interval fc "False" == 84)%Q).
Proof.
  unfold _calculate_next_interval.
  repeat split;
    match goal with H : stage_id fc = _ |- _ => rewrite H end; reflexivity.
Qed.

Lemma hours_of_nonneg (d : Z) : 0 <= d -> (0 <= hours_of d)%Q.
Proof. intros H. unfold hours_of, Qle. simpl. lia. Qed.

Lemma hours_of_neg (d : Z) : d < 0 -> (hours_of d <= 0)%Q.
Proof. intros H. unfold hours_of, Qle. simpl. lia. Qed.

(** The bonus the scorer computes is the specification's bounded bonus. *)
Lemma overdue_bonus_spec (now : time) (due : option time) :
  (match due with
   | Some next_review =>
       if next_review <=? now
       then Qmin (hours_of (now - next_review) * 5) 50
       else 0
   | None => 0
   end == Spec.overdueBonus now due)%Q.
Proof.
  unfold Spec.overdueBonus, Spec.overdueHours.
  destruct due as [t|].
  - destruct (t <=? now) eqn:E.
    + apply Z.leb_le in E.
      rewrite (Q.max_r 0 (hours_of (now - t))) by (apply hours_of_nonneg; lia).
      rewrite (Qmult_comm 5). reflexivity.
    + apply Z.leb_gt in E.
      rewrite (Q.max_l 0 (hours_of (now - t))) by (apply hours_of_neg; lia).
      rewrite Q.min_l; [reflexivity | discriminate].
  - rewrite Q.min_l; [reflexivity | discriminate].
Qed.

Lemma stage_priority_spec (s : Z) :
  1 <= s <= 4 -> stage_priority s = Some (Spec.base s).
Proof.
  intros H. unfold stage_priority, Spec.base.
  destruct (s =? 1) eqn:E1; [reflexivity|].
  destruct (s =? 2) eqn:E2; [reflexivity|].
  destruct (s =? 3) eqn:E3; [reflexivity|].
  destruct (s =? 4) eqn:E4; [reflexivity|].
  apply Z.eqb_neq in E1, E2, E3, E4. lia.
Qed.

(** C4. The priority score.  For a flashcard with a stage in {1,2,3,4} and
    a query time [now], the scorer returns
    [base + overdueBonus + wrongPenaltyBoost + freshnessBonus] with
    [base = {1:100, 2:80, 3:60, 4:40}[stage]],
    [overdueBonus = min(5 * overdueHours, 50)],
    [overdueHours = max(0, hours from next_review_time to now)] (0 when
    not yet due or without a due time), [wrongPenaltyBoost = 30] when the
    last recorded outcome is incorrect and 0 otherwise, and
    [freshnessBonus = 20] at stage 1 and 0 otherwise. *)
Theorem priority_score_formula (now : time) (fc : FlashCard) :
  1 <= stage_id fc <= 4 ->
  exists s,
    _calculate_priority_score now fc = Some s /\
    (s == Spec.score now fc)%Q.
Proof.
  intros Hs. unfold _calculate_priority_score.
  rewrite (stage_priority_spec _ Hs).
  eexists. split; [reflexivity|].
  unfold Spec.score, Spec.wrongPenaltyBoost, Spec.freshnessBonus.
  rewrite (overdue_bonus_spec now (next_review_time fc)).
  reflexivity.
Qed.

Lemma priority_score_formula_witness :
  exists s,
    _calculate_priority_score 9000000000 demo_card = Some s /\
    (s == 80 + (5 # 2) + 0 + 0)%Q.
Proof.
  destruct (priority_score_formula 9000000000 demo_card) as [s [H1 H2]].
  - simpl. lia.
  - exists s. split; [exact H1|]. rewrite H2. reflexivity.
Defined.

(** ** The next-check delay *)





(** ** Sorting *)

Section OrderByFacts.
Context {A : Type} (leb : A -> A -> bool).

Lemma insert_row_perm (x : A) (l : list A) :
  Permutation (insert_row leb x l) (x :: l).
Proof.
  induction l as [|y ys IH]; simpl; [reflexivity|].
  destruct (leb x y); [reflexivity|].
  rewrite IH. apply perm_swap.
Qed.

Lemma order_by_perm (l : list A) : Permutation (order_by leb l) l.
Proof.
  induction l as [|x xs IH]; simpl; [reflexivity|].
  rewrite insert_row_perm. constructor. exact IH.
Qed.

Lemma order_by_in (x : A) (l : list A) : In x (order_by leb l) <-> In x l.
Proof.
  split; apply Permutation_in;
    [apply order_by_perm | symmetry; apply order_by_perm].
Qed.

Hypothesis leb_total : forall a b, leb a b = false -> leb b a = true.
Hypothesis leb_trans :
  forall a b c, leb a b = true -> leb b c = true -> leb a c = true.

Let before (a b : A) : Prop := leb a b = true.

Lemma insert_row_sorted (x : A) (l : list A) :
  StronglySorted before l -> StronglySorted before (insert_row leb x l).
Proof.
  induction 1 as [|y ys Hs IH Hall]; simpl.
  - repeat constructor.
  - destruct (leb x y) eqn:E.
    + constructor; [constructor; assumption|].
      constructor; [exact E|].
      rewrite Forall_forall in *. intros z Hz.
      eapply leb_trans; [exact E | apply Hall; exact Hz].
    + constructor; [exact IH|].
      rewrite Forall_forall in *. intros z Hz.
      apply (Permutation_in _ (insert_row_perm x ys)) in Hz.
      destruct Hz as [<- | Hz]; [apply leb_total; exact E | auto].
Qed.

Lemma order_by_sorted (l : list A) : StronglySorted before (order_by leb l).
Proof.
  induction l as [|x xs IH]; simpl; [constructor|].
  apply insert_row_sorted. exact IH.
Qed.

(** In a sorted list the row at the smaller index may stand first. *)
Lemma sorted_nth (l : list A) :
  StronglySorted before l ->
  forall (i j : nat) (a b : A),
    (i < j)%nat -> nth_error l i = Some a -> nth_error l j = Some b ->
    leb a b = true.
Proof.
  induction 1 as [|y ys Hs IH Hall]; intros i j a b Hij Ha Hb.
  - destruct i; discriminate.
  - destruct j as [|j]; [lia|]. simpl in Hb.
    destruct i as [|i]; simpl in Ha.
    + inversion Ha; subst y.
      rewrite Forall_forall in Hall. apply Hall.
      eapply nth_error_In; eauto.
    + apply (IH i j); auto. lia.
Qed.

End OrderByFacts.

Lemma firstn_in {A : Type} (n : nat) (l : list A) (x : A) :
  In x (firstn n l) -> In x l.
Proof.
  revert n. induction l as [|y ys IH]; intros [|n]; simpl; try tauto.
  intros [-> | H]; [left; reflexivity | right; eauto].
Qed.

Lemma sql_limit_nth {A : Type} (n : Z) (l : list A) (i : nat) (a : A) :
  nth_error (sql_limit n l) i = Some a -> nth_error l i = Some a.
Proof.
  unfold sql_limit. destruct (n <? 0); [auto|].
  rewrite nth_error_firstn.
  destruct (Nat.ltb i (Z.to_nat n)); [auto | discriminate].
Qed.

(** ** The order of the due set *)

Lemma time_asc_total (a b : option time) :
  time_asc a b = false -> time_asc b a = true.
Proof.
  destruct a as [x|], b as [y|]; simpl; try congruence.
  intros H. apply Z.leb_gt in H. apply Z.leb_le. lia.
Qed.

Lemma time_asc_trans (a b c : option time) :
  time_asc a b = true -> time_asc b c = true -> time_asc a c = true.
Proof.
  destruct a as [x|], b as [y|], c as [z|]; simpl; try congruence.
  rewrite !Z.leb_le. lia.
Qed.

Lemma due_order_iff (a b : FlashCard) :
  due_order a b = true <->
  (priority_score b < priority_score a)%Q \/
  ((priority_score a == priority_score b)%Q /\
   (stage_id a < stage_id b \/
    (stage_id a = stage_id b /\
     time_asc (next_review_time a) (next_review_time b) = true))).
Proof.
  unfold due_order.
  destruct (Qcompare_spec (priority_score a) (priority_score b)) as [He | Hl | Hg].
  - destruct (stage_id a <? stage_id b) eqn:E1.
    + apply Z.ltb_lt in E1. split; [intros _; right; auto | reflexivity].
    + apply Z.ltb_ge in E1.
      destruct (stage_id b <? stage_id a) eqn:E2.
      * apply Z.ltb_lt in E2. split; [discriminate|].
        intros [H | [_ [H | [H _]]]]; [lra | lia | lia].
      * apply Z.ltb_ge in E2. split.
        -- intros H. right. split; [exact He|]. right. split; [lia | exact H].
        -- intros [H | [_ [H | [_ H]]]]; [lra | lia | exact H].
  - split; [discriminate|].
    intros [H | [H _]]; lra.
  - split; [intros _; left; exact Hg | reflexivity].
Qed.

Lemma due_order_total (a b : FlashCard) :
  due_order a b = false -> due_order b a = true.
Proof.
  intros H. apply due_order_iff.
  destruct (Qcompare_spec (priority_score a) (priority_score b)) as [He | Hl | Hg].
  - right. split; [symmetry; exact He|].
    destruct (Z.lt_trichotomy (stage_id a) (stage_id b)) as [Hlt | [Heq | Hgt]].
    + exfalso. assert (due_order a b = true); [|congruence].
      apply due_order_iff. right. auto.
    + right. split; [auto|]. apply time_asc_total.
      destruct (time_asc (next_review_time a) (next_review_time b)) eqn:E; auto.
      exfalso. assert (due_order a b = true); [|congruence].
      apply due_order_iff. right. auto.
    + left. exact Hgt.
  - left. exact Hl.
  - exfalso. assert (due_order a b = true); [|congruence].
    apply due_order_iff. left. exact Hg.
Qed.

Lemma due_order_trans (a b c : FlashCard) :
  due_order a b = true -> due_order b c = true -> due_order a c = true.
Proof.
  rewrite !due_order_iff.
  intros [Hab | [Eab [Sab | [Sab Tab]]]] [Hbc | [Ebc [Sbc | [Sbc Tbc]]]];
    try (left; lra);
    try (right; split; [lra|]; left; lia).
  right. split; [lra|]. right. split; [lia|].
  eapply time_asc_trans; eauto.
Qed.

Lemma update_where_notin (i : Z) (f : FlashCard -> FlashCard) (l : store) :
  ~ In i (map id l) -> update_where i f l = l.
Proof.
  unfold update_where. induction l as [|r l IH]; simpl; intros H; [reflexivity|].
  destruct (id r =? i) eqn:E.
  - apply Z.eqb_eq in E. tauto.
  - rewrite IH by tauto. reflexivity.
Qed.

(** With a frozen clock and unique keys the scoring loop rescores each
    row from its own columns. *)
Lemma rescore_rows_frozen (now : time) (rows : list FlashCard) :
  forall (k : nat) (done : list FlashCard),
    NoDup (map id done ++ map id rows) ->
    Forall (fun r => stage_check (stage_id r) = true) rows ->
    exists rows',
      rescore_rows (frozen now) k rows (done ++ rows) = Some (done ++ rows') /\
      Forall2 (fun r r' => exists s,
                   _calculate_priority_score now r = Some s /\
                   r' = set_priority_score s r) rows rows'.
Proof.
  induction rows as [|r rest IH]; intros k done Hnd Hok.
  - exists []. split; [reflexivity | constructor].
  - inversion Hok as [|x l Hr Hrest]; subst.
    destruct (score_defined now r Hr) as [s Hs].
    cbn [rescore_rows]. unfold frozen at 1. rewrite Hs.
    simpl map in Hnd.
    pose proof (NoDup_remove_2 _ _ _ Hnd) as Hnotin.
    assert (Hupd : update_where (id r) (set_priority_score s) (done ++ r :: rest)
                   = (done ++ [set_priority_score s r]) ++ rest).
    { unfold update_where. rewrite map_app. simpl. rewrite Z.eqb_refl.
      fold (update_where (id r) (set_priority_score s) done).
      fold (update_where (id r) (set_priority_score s) rest).
      rewrite !update_where_notin
        by (intros H; apply Hnotin; apply in_or_app; auto).
      rewrite <- app_assoc. reflexivity. }
    rewrite Hupd.
    destruct (IH (S k) (done ++ [set_priority_score s r])) as [rows' [Hrun Hrel]].
    + rewrite map_app. simpl. rewrite <- app_assoc. exact Hnd.
    + exact Hrest.
    + exists (set_priority_score s r :: rows'). split.
      * rewrite Hrun, <- app_assoc. reflexivity.
      * constructor; [eauto | exact Hrel].
Qed.

Lemma get_due_frozen (now : time) (db : store) (limit : Z) :
  check_ok db -> unique_ids db ->
  exists db',
    get_due_flashcards (frozen now) db limit
    = Returned (db', sql_limit limit
                       (order_by due_order (filter (due_at now) db'))) /\
    Forall (fun a => _calculate_priority_score now a = Some (priority_score a)) db'.
Proof.
  intros Hok Hnd.
  destruct (rescore_rows_frozen now db 0%nat [] Hnd Hok) as [db' [Hrun Hrel]].
  exists db'. simpl app in Hrun. split.
  - unfold get_due_flashcards, _update_all_priority_scores.
    rewrite Hrun. reflexivity.
  - clear Hrun Hok Hnd.
    induction Hrel as [|r r' l l' [s [Hs ->]] _ IH]; constructor; [|exact IH].
    cbn [priority_score set_priority_score]. rewrite <- Hs.
    apply score_ext; reflexivity.
Qed.

Lemma hours_of_le (d1 d2 : Z) : d1 <= d2 -> (hours_of d1 <= hours_of d2)%Q.
Proof. intros H. unfold hours_of, Qle. simpl. lia. Qed.

Lemma check_ok_pair : check_ok [early_card; late_wrong_card].
Proof. repeat constructor. Qed.

Lemma unique_ids_pair : unique_ids [early_card; late_wrong_card].
Proof.
  unfold unique_ids. simpl. repeat constructor; simpl; intuition discriminate.
Qed.

(** The scoring loop under any clock: with unique keys each row is
    rescored from its own columns, at one of the readings taken while the
    loop runs. *)
Lemma rescore_rows_any_clock (clk : clock) (rows : list FlashCard) :
  forall (k : nat) (done : list FlashCard),
    NoDup (map id done ++ map id rows) ->
    Forall (fun r => stage_check (stage_id r) = true) rows ->
    exists rows',
      rescore_rows clk k rows (done ++ rows) = Some (done ++ rows') /\
      Forall2 (fun r r' => exists (m : nat) (s : Q),
                   (k <= m < k + List.length rows)%nat /\
                   _calculate_priority_score (clk m) r = Some s /\
                   r' = set_priority_score s r) rows rows'.
Proof.
  induction rows as [|r rest IH]; intros k done Hnd Hok.
  - exists []. split; [reflexivity | constructor].
  - inversion Hok as [|x l Hr Hrest]; subst.
    destruct (score_defined (clk k) r Hr) as [s Hs].
    cbn [rescore_rows]. rewrite Hs.
    simpl map in Hnd.
    pose proof (NoDup_remove_2 _ _ _ Hnd) as Hnotin.
    assert (Hupd : update_where (id r) (set_priority_score s) (done ++ r :: rest)
                   = (done ++ [set_priority_score s r]) ++ rest).
    { unfold update_where. rewrite map_app. simpl. rewrite Z.eqb_refl.
      fold (update_where (id r) (set_priority_score s) done).
      fold (update_where (id r) (set_priority_score s) rest).
      rewrite !update_where_notin
        by (intros H; apply Hnotin; apply in_or_app; auto).
      rewrite <- app_assoc. reflexivity. }
    rewrite Hupd.
    destruct (IH (S k) (done ++ [set_priority_score s r])) as [rows' [Hrun Hrel]].
    + rewrite map_app. simpl. rewrite <- app_assoc. exact Hnd.
    + exact Hrest.
    + exists (set_priority_score s r :: rows'). split.
      * rewrite Hrun, <- app_assoc. reflexivity.
      * constructor.
        -- exists k, s. cbn [List.length]. repeat split; auto; lia.
        -- eapply Forall2_impl; [|exact Hrel].
           intros x y [m [s' [Hm Hrest']]]. exists m, s'.
           cbn [List.length]. split; [lia | exact Hrest'].
Qed.

Lemma Forall2_right {A B : Type} (R : A -> B -> Prop) (P : B -> Prop)
  (l : list A) (l' : list B) :
  Forall2 R l l' -> (forall x y, R x y -> P y) -> Forall P l'.
Proof.
  intros H HP. induction H; constructor; eauto.
Qed.

Lemma get_due_any_clock (clk : clock) (db : store) (limit : Z) :
  check_ok db -> unique_ids db ->
  exists db',
    get_due_flashcards clk db limit
    = Returned (db', sql_limit limit
                       (order_by due_order
                          (filter (due_at (clk (List.length db))) db'))) /\
    Forall (fun a => exists m : nat,
                (m < List.length db)%nat /\
                _calculate_priority_score (clk m) a = Some (priority_score a))
      db'.
Proof.
  intros Hok Hnd.
  destruct (rescore_rows_any_clock clk db 0%nat [] Hnd Hok) as [db' [Hrun Hrel]].
  exists db'. simpl app in Hrun. split.
  - unfold get_due_flashcards, _update_all_priority_scores.
    rewrite Hrun. reflexivity.
  - apply (Forall2_right _ _ _ _ Hrel).
    intros r r' [m [s [Hm [Hs ->]]]].
    exists m. split; [lia|].
    cbn [priority_score set_priority_score]. rewrite <- Hs.
    apply score_ext; reflexivity.
Qed.

(** The overdue bonus as the scorer computes it grows with the lateness
    [current_time - next_review]. *)
Lemma overdue_bonus_monotone (t1 d1 t2 d2 : time) :
  t1 - d1 <= t2 - d2 ->
  ((if d1 <=? t1 then Qmin (hours_of (t1 - d1) * 5) 50 else 0)
   <= (if d2 <=? t2 then Qmin (hours_of (t2 - d2) * 5) 50 else 0))%Q.
Proof.
  intros H.
  assert (Hpos : forall t d, d <= t ->
             (0 <= Qmin (hours_of (t - d) * 5) 50)%Q).
  { intros t d Hd. apply Q.min_glb; [|discriminate].
    assert (H0 : 0 <= t - d) by lia.
    pose proof (hours_of_nonneg _ H0). lra. }
  destruct (d1 <=? t1) eqn:E1.
  - apply Z.leb_le in E1.
    assert (E2 : (d2 <=? t2) = true) by (apply Z.leb_le; lia).
    rewrite E2. apply Q.min_le_compat_r.
    pose proof (hours_of_le _ _ H). lra.
  - destruct (d2 <=? t2) eqn:E2.
    + apply Z.leb_le in E2. apply Hpos. exact E2.
    + apply Qle_refl.
Qed.

(** Two rows of one stage with the same wrong-answer flag, each scored
    at its own reading: when the first is no later at its reading than
    the second at its own, and yet may stand first in the due order, it
    is due no later than the second. *)
Lemma due_order_by_lateness (ma mb : time) (a b : FlashCard) (ta tb : time) :
  _calculate_priority_score ma a = Some (priority_score a) ->
  _calculate_priority_score mb b = Some (priority_score b) ->
  stage_id a = stage_id b ->
  last_incorrect a = last_incorrect b ->
  next_review_time a = Some ta -> next_review_time b = Some tb ->
  mb - tb <= ma - ta ->
  due_order b a = true ->
  tb <= ta.
Proof.
  unfold _calculate_priority_score, last_incorrect.
  intros Ha Hb Hst Hw Na Nb Hlate Hord.
  rewrite <- Hst in Hb. rewrite Na in Ha. rewrite Nb in Hb.
  destruct (stage_priority (stage_id a)) as [base|]; [|discriminate].
  assert (Hpen :
            match correct a with Some false => 30%Q | _ => 0%Q end
            = match correct b with Some false => 30%Q | _ => 0%Q end).
  { destruct (correct a) as [[|]|], (correct b) as [[|]|];
      try reflexivity; discriminate. }
  rewrite <- Hpen in Hb.
  pose proof (overdue_bonus_monotone mb tb ma ta Hlate) as Hbonus.
  inversion Ha as [Pa]. inversion Hb as [Pb].
  apply due_order_iff in Hord. rewrite Na, Nb in Hord.
  destruct Hord as [Hlt | [_ [Hlt | [_ Ht]]]].
  - rewrite <- Pa, <- Pb in Hlt. lra.
  - lia.
  - simpl in Ht. apply Z.leb_le in Ht. exact Ht.
Qed.

(** C5, as the code has it.  On a store that satisfies its constraints
    the due-set query returns, whatever the clock reads.  Of two returned
    items with equal stage and the same wrong-answer flag (both last
    answered wrongly, or neither), the one with the earlier
    [next_review_time] stands strictly before the other, hence no later,
    provided the clock readings at which the rows are rescored differ
    from one another by no more than the two due times do; that is the
    case for every pair when the clock does not advance during the
    call. *)
Theorem due_set_more_overdue_first (clk : clock) (db : store) (limit : Z) :
  check_ok db -> unique_ids db ->
  exists db' res,
    get_due_flashcards clk db limit = Returned (db', res) /\
    forall (i j : nat) (a b : FlashCard) (ta tb : time),
      nth_error res i = Some a -> nth_error res j = Some b ->
      stage_id a = stage_id b ->
      last_incorrect a = last_incorrect b ->
      next_review_time a = Some ta -> next_review_time b = Some tb ->
      ta < tb ->
      (forall k k' : nat,
         (k < List.length db)%nat -> (k' < List.length db)%nat ->
         clk k - clk k' <= tb - ta) ->
      (i < j)%nat.
Proof.
  intros Hok Hnd.
  destruct (get_due_any_clock clk db limit Hok Hnd) as [db' [Hret Hscores]].
  eexists db', _. split; [exact Hret|].
  intros i j a b ta tb Ha Hb Hst Hw Na Nb Hlt Hclk.
  apply sql_limit_nth in Ha, Hb.
  assert (Hrow : forall n x,
             nth_error (order_by due_order
                          (filter (due_at (clk (List.length db))) db')) n
             = Some x ->
             exists m : nat,
               (m < List.length db)%nat /\
               _calculate_priority_score (clk m) x = Some (priority_score x)).
  { intros n x Hx. apply nth_error_In in Hx.
    apply order_by_in in Hx. apply filter_In in Hx. destruct Hx as [Hin _].
    rewrite Forall_forall in Hscores. auto. }
  destruct (Hrow i a Ha) as [ma [Hma Sa]]. destruct (Hrow j b Hb) as [mb [Hmb Sb]].
  destruct (Nat.lt_trichotomy i j) as [Hij | [Hij | Hij]]; [exact Hij | |].
  - subst j. rewrite Ha in Hb. inversion Hb; subst b.
    rewrite Na in Nb. inversion Nb. lia.
  - exfalso.
    pose proof (sorted_nth due_order _
                  (order_by_sorted due_order due_order_total due_order_trans _)
                  j i b a Hij Hb Ha) as Hord.
    pose proof (Hclk mb ma Hmb Hma) as Hgap.
    assert (Hlate : clk mb - tb <= clk ma - ta) by lia.
    pose proof (due_order_by_lateness (clk ma) (clk mb) a b ta tb
                  Sa Sb Hst Hw Na Nb Hlate Hord).
    lia.
Qed.

Lemma check_ok_early_later : check_ok [early_card; later_card].
Proof. repeat constructor. Qed.

Lemma unique_ids_early_later : unique_ids [early_card; later_card].
Proof.
  unfold unique_ids. simpl. repeat constructor; simpl; intuition discriminate.
Qed.

Lemma due_set_more_overdue_first_witness :
  exists db' a b,
    get_due_flashcards (ticking 7200000000 1000) [early_card; later_card] 5
    = Returned (db', [a; b]) /\
    stage_id a = stage_id b /\
    last_incorrect a = last_incorrect b /\
    next_review_time a = Some 3600000000 /\
    next_review_time b = Some 5400000000 /\
    (forall i j : nat,
       nth_error [a; b] i = Some a -> nth_error [a; b] j = Some b ->
       (i < j)%nat).
Proof.
  assert (Hrun : exists db0 a b,
             get_due_flashcards (ticking 7200000000 1000)
               [early_card; later_card] 5 = Returned (db0, [a; b]) /\
             stage_id a = stage_id b /\
             last_incorrect a = last_incorrect b /\
             next_review_time a = Some 3600000000 /\
             next_review_time b = Some 5400000000).
  { eexists _, _, _. split; [vm_compute; reflexivity|].
    repeat split; reflexivity. }
  destruct Hrun as [db0 [a [b [Hrun [Hst [Hw [Na Nb]]]]]]].
  destruct (due_set_more_overdue_first (ticking 7200000000 1000)
              [early_card; later_card] 5
              check_ok_early_later unique_ids_early_later)
    as [db' [res [Hret Hord]]].
  rewrite Hrun in Hret. inversion Hret; subst db' res.
  exists db0, a, b. split; [exact Hrun|].
  repeat (split; [assumption|]).
  intros i j Hi Hj.
  apply (Hord i j a b 3600000000 5400000000 Hi Hj Hst Hw Na Nb); [lia|].
  intros k k' Hk Hk'. unfold ticking. simpl in Hk, Hk'. lia.
Defined.

(** C5 as stated fails.  At hour 2 the store holds two due stage-2 cards:
    [early_card], due since hour 1, and [late_wrong_card], due since hour
    1.5 and last answered wrongly.  The query returns the less overdue
    card first: its score 80 + 2.5 + 30 beats 80 + 5. *)
Lemma wrong_answer_outranks_more_overdue :
  exists db' a b,
    get_due_flashcards (frozen 7200000000) [early_card; late_wrong_card] 5
    = Returned (db', [b; a]) /\
    stage_id a = stage_id b /\
    next_review_time a = Some 3600000000 /\
    next_review_time b = Some 5400000000 /\
    (priority_score a == 85)%Q /\
    (priority_score b == 225 # 2)%Q.
Proof.
  eexists _, _, _. split; [vm_compute; reflexivity|].
  repeat split; reflexivity.
Qed.

(** An advancing clock is a second way for the less overdue card to come
    first.  [close_card] falls due one microsecond after [early_card];
    both have the same stage and the same wrong-answer flag.  With a
    clock that advances by a millisecond per reading, [early_card] is
    scored first and [close_card] a millisecond later, by then the later
    of the two, and the query returns it first. *)
Lemma advancing_clock_outranks_more_overdue :
  exists db' a b,
    get_due_flashcards (ticking 7200000000 1000) [early_card; close_card] 5
    = Returned (db', [b; a]) /\
    stage_id a = stage_id b /\
    last_incorrect a = last_incorrect b /\
    next_review_time a = Some 3600000000 /\
    next_review_time b = Some 3600000001 /\
    (priority_score a < priority_score b)%Q.
Proof.
  eexists _, _, _. split; [vm_compute; reflexivity|].
  repeat split; reflexivity.
Qed.

(** ** The distractor samplers *)

Lemma mem_string_in (w : string) (ws : list string) :
  mem_string w ws = true <-> In w ws.
Proof.
  unfold mem_string. rewrite existsb_exists. split.
  - intros [x [Hin Heq]]. apply String.eqb_eq in Heq. subst. exact Hin.
  - intros Hin. exists w. split; [exact Hin | apply String.eqb_refl].
Qed.

Lemma sql_limit_in {A : Type} (n : Z) (l : list A) (x : A) :
  In x (sql_limit n l) -> In x l.
Proof.
  unfold sql_limit. destruct (n <? 0); [auto | apply firstn_in].
Qed.

Lemma slice_to_in {A : Type} (n : Z) (l : list A) (x : A) :
  In x (slice_to n l) -> In x l.
Proof.
  unfold slice_to. destruct (n <? 0); apply firstn_in.
Qed.

(** The top-up loop only adds built-in defaults. *)
Lemma top_up_in (count : Z) (defaults : list string) :
  forall (ws : list string) (w : string),
    In w (top_up count defaults ws) -> In w ws \/ In w defaults.
Proof.
  induction defaults as [|d rest IH]; simpl; intros ws w H; [auto|].
  destruct (count <=? Z.of_nat (List.length ws)); [auto|].
  destruct (mem_string d ws).
  - destruct (IH _ _ H); auto.
  - destruct (IH _ _ H) as [Hin | Hin]; [|auto].
    apply in_app_or in Hin. destruct Hin as [Hin | [-> | []]]; auto.
Qed.

Lemma in_window_other (exclude_id : Z) (r : FlashCard) :
  in_window exclude_id r = true -> id r <> exclude_id.
Proof.
  unfold in_window. rewrite andb_true_iff, negb_true_iff, Z.eqb_neq. tauto.
Qed.

Section Sampler.
Variable sql_random : list FlashCard -> list FlashCard.
Variable shuffle : list string -> list string.
Hypothesis sql_random_perm : forall l, Permutation (sql_random l) l.
Hypothesis shuffle_perm : forall l, Permutation (shuffle l) l.

(** Every string a sampler returns is the column of a row other than
    the target row, or one of the built-in defaults. *)
Lemma contextual_sample_in (col : FlashCard -> string) (defaults : list string)
  (db : store) (exclude_id count : Z) (w : string) :
  In w (contextual_sample col defaults sql_random shuffle db exclude_id count) ->
  (exists r, In r db /\ id r <> exclude_id /\ col r = w) \/ In w defaults.
Proof.
  unfold contextual_sample. intros H.
  apply slice_to_in in H.
  apply (Permutation_in _ (shuffle_perm _)) in H.
  apply top_up_in in H. destruct H as [H | H]; [left | right; exact H].
  assert (Hwin : forall v,
             In v (map col (order_by id_asc (filter (in_window exclude_id) db))) ->
             exists r, In r db /\ id r <> exclude_id /\ col r = v).
  { intros v Hv. apply in_map_iff in Hv. destruct Hv as [r [Hc Hr]].
    apply order_by_in in Hr. apply filter_In in Hr. destruct Hr as [Hr Hw].
    exists r. split; [exact Hr|]. split; [|exact Hc].
    apply in_window_other. exact Hw. }
  match type of H with
  | In w (if ?c then _ else _) => destruct c
  end; [|auto].
  apply in_app_or in H. destruct H as [H | H]; [auto|].
  apply in_map_iff in H. destruct H as [r [Hc Hr]].
  apply sql_limit_in in Hr.
  apply (Permutation_in _ (sql_random_perm _)) in Hr.
  apply filter_In in Hr. destruct Hr as [Hr Hf].
  apply andb_true_iff in Hf. destruct Hf as [Hne _].
  apply negb_true_iff, Z.eqb_neq in Hne.
  exists r. auto.
Qed.
End Sampler.

(** ** The option builder of the reviewer *)

Lemma add_default_options_count (defaults : list string) :
  forall (options : list string) (w : string),
    In w options ->
    count_occ string_dec (add_default_options defaults options) w
    = count_occ string_dec options w.
Proof.
  induction defaults as [|d rest IH]; simpl; intros options w Hin; [reflexivity|].
  destruct ((Z.of_nat (List.length options) <? 4) && negb (mem_string d options))
    eqn:E; [|apply IH; exact Hin].
  apply andb_true_iff in E. destruct E as [_ Hnew].
  apply negb_true_iff in Hnew.
  rewrite IH by (apply in_or_app; auto).
  rewrite count_occ_app. simpl.
  destruct (string_dec d w) as [-> | _]; [|lia].
  apply mem_string_in in Hin. congruence.
Qed.

Lemma add_default_options_length (defaults : list string) :
  forall options : list string,
    (List.length options <= 4)%nat ->
    (List.length (add_default_options defaults options) <= 4)%nat.
Proof.
  induction defaults as [|d rest IH]; simpl; intros options Hlen; [exact Hlen|].
  destruct (Z.of_nat (List.length options) <? 4) eqn:E; simpl.
  - destruct (negb (mem_string d options)); [|auto].
    apply IH. rewrite length_app. simpl. apply Z.ltb_lt in E. lia.
  - auto.
Qed.

(** Whatever the pool holds, the options built for a card contain the
    card's own answer exactly once: no wrong option equals it. *)
Lemma build_options_answer_once (answer : string) (defaults : list string)
  (shuffle_pool shuffle_options : list string -> list string)
  (contextual : list string) :
  (forall l, Permutation (shuffle_pool l) l) ->
  (forall l, Permutation (shuffle_options l) l) ->
  count_occ string_dec
    (build_options answer defaults shuffle_pool shuffle_options contextual)
    answer = 1%nat.
Proof.
  intros Hp Ho. unfold build_options.
  set (pool := shuffle_pool _).
  set (options := answer :: firstn 3 pool).
  change ([answer] ++ firstn 3 pool) with options.
  set (final := add_default_options _ options).
  assert (Hlen : (List.length final <= 4)%nat).
  { apply add_default_options_length. unfold options. cbn [List.length].
    pose proof (firstn_le_length 3 pool). lia. }
  assert (Hall : slice_to 4 (shuffle_options final) = shuffle_options final).
  { unfold slice_to. change (4 <? 0) with false. cbv iota.
    change (Z.to_nat 4) with 4%nat. apply firstn_all2.
    rewrite (Permutation_length (Ho final)). exact Hlen. }
  rewrite Hall.
  rewrite (proj1 (Permutation_count_occ string_dec _ _) (Ho final)).
  unfold final. rewrite add_default_options_count by (left; reflexivity).
  unfold options. cbn [count_occ].
  destruct (string_dec answer answer) as [_ | Hne]; [|congruence].
  f_equal. apply count_occ_not_In. intros Hin.
  apply firstn_in in Hin. unfold pool in Hin.
  apply (Permutation_in _ (Hp _)) in Hin.
  apply filter_In in Hin. destruct Hin as [_ Hf].
  rewrite String.eqb_refl in Hf. discriminate.
Qed.

Lemma keep_order_perm {A : Type} (l : list A) : Permutation (keep_order l) l.
Proof. reflexivity. Qed.

(** C8, as the code has it.  The samplers leave the target out by its id.
    So for every target item X and every requested count, whatever the
    random choices: if no other row of the store carries X's word and X's
    word is not a built-in default word, the stage-3 sampler does not
    return X's word; and likewise the stage-2 sampler does not return
    X's meaning if no other row and no built-in default meaning equals it.
    Whatever the pool handed to the reviewer holds, its option builders
    show X's word, respectively X's meaning, exactly once (the correct
    answer), so never as a wrong option. *)
Theorem samplers_exclude_target_row
  (sql_random : list FlashCard -> list FlashCard)
  (shuffle : list string -> list string)
  (db : store) (X : FlashCard) (count : Z) :
  (forall l, Permutation (sql_random l) l) ->
  (forall l, Permutation (shuffle l) l) ->
  ((forall r, In r db -> id r <> id X -> word r <> word X) ->
   ~ In (word X) default_words ->
   ~ In (word X)
       (get_contextual_words_for_stage3 sql_random shuffle db (id X) count)) /\
  ((forall r, In r db -> id r <> id X -> meaning r <> meaning X) ->
   ~ In (meaning X) default_meanings ->
   ~ In (meaning X)
       (get_contextual_meanings_for_stage2 sql_random shuffle db (id X) count)) /\
  (forall shuffle_pool shuffle_options pool,
     (forall l, Permutation (shuffle_pool l) l) ->
     (forall l, Permutation (shuffle_options l) l) ->
     count_occ string_dec
       (get_multiple_choice_options shuffle_pool shuffle_options pool X)
       (word X) = 1%nat) /\
  (forall shuffle_pool shuffle_options pool,
     (forall l, Permutation (shuffle_pool l) l) ->
     (forall l, Permutation (shuffle_options l) l) ->
     count_occ string_dec
       (get_multiple_choice_meanings_for_stage2 shuffle_pool shuffle_options
          pool X)
       (meaning X) = 1%nat).
Proof.
  intros Hr Hs. split; [|split; [|split]].
  - intros Hother Hdef Hin.
    apply (contextual_sample_in sql_random shuffle Hr Hs) in Hin.
    destruct Hin as [[r [Hin [Hid Hcol]]] | Hin];
      [exact (Hother r Hin Hid Hcol) | exact (Hdef Hin)].
  - intros Hother Hdef Hin.
    apply (contextual_sample_in sql_random shuffle Hr Hs) in Hin.
    destruct Hin as [[r [Hin [Hid Hcol]]] | Hin];
      [exact (Hother r Hin Hid Hcol) | exact (Hdef Hin)].
  - intros sp so pool Hp Ho. apply build_options_answer_once; assumption.
  - intros sp so pool Hp Ho. apply build_options_answer_once; assumption.
Qed.

Lemma samplers_exclude_target_row_witness :
  (In (word early_card)
      (get_contextual_words_for_stage3 keep_order keep_order
         [early_card; late_wrong_card] 1 3) -> False) /\
  (In (meaning early_card)
      (get_contextual_meanings_for_stage2 keep_order keep_order
         [early_card; late_wrong_card] 1 3) -> False) /\
  count_occ string_dec
    (get_multiple_choice_options keep_order keep_order
       ["flow"; "ebb"; "apple"] early_card) "ebb" = 1%nat.
Proof.
  destruct (samplers_exclude_target_row keep_order keep_order
              [early_card; late_wrong_card] early_card 3
              (@keep_order_perm FlashCard) (@keep_order_perm string))
    as [Hw [Hm [Ho _]]].
  split; [|split].
  - apply Hw.
    + intros r [<- | [<- | []]]; simpl; [lia | discriminate].
    + simpl. intuition discriminate.
  - apply Hm.
    + intros r [<- | [<- | []]]; simpl; [lia | discriminate].
    + simpl. intuition discriminate.
  - apply Ho; intros l; apply keep_order_perm.
Defined.

(** C8 as stated fails.  Alone in the store, [apple_card] gets its own
    word and its own meaning back from the built-in defaults; and with
    [apple_twin] beside it, it gets its word back from the twin's row. *)
Lemma sampler_returns_target_term :
  get_contextual_words_for_stage3 keep_order keep_order [apple_card] 1 3
  = ["apple"; "book"; "cat"] /\
  In (word apple_card)
     (get_contextual_words_for_stage3 keep_order keep_order [apple_card] 1 3) /\
  In (meaning apple_card)
     (get_contextual_meanings_for_stage2 keep_order keep_order [apple_card] 1 3) /\
  In (word apple_card)
     (get_contextual_words_for_stage3 keep_order keep_order
        [apple_card; apple_twin] 1 1).
Proof.
  repeat split; vm_compute; auto.
Qed.

(** ** Scenarios *)

(** Correct at stage 1: the card moves to stage 2 and is due one hour
    (0.5 x 2.0) after the review. *)
Example correct_at_stage_1 :
  exists db' fc',
    update_flashcard_after_review (frozen 7200000000) [apple_twin] 2 "True"
    = Returned db' /\
    get_flashcard_by_id db' 2 = Some fc' /\
    stage_id fc' = 2 /\
    next_review_time fc' = Some (7200000000 + 3600000000) /\
    (review_count fc', correct_count fc', wrong_count fc') = (1, 1, 0).
Proof.
  eexists _, _. split; [vm_compute; reflexivity|].
  split; [vm_compute; reflexivity|]. repeat split.
Qed.

(** Incorrect at stage 3: the stage stays 3 and the card is due twelve
    hours (24 x 0.5) after the review. *)
Example incorrect_at_stage_3 :
  exists db' fc',
    update_flashcard_after_review (frozen 7200000000) [apple_card] 1 "False"
    = Returned db' /\
    get_flashcard_by_id db' 1 = Some fc' /\
    stage_id fc' = 3 /\
    correct fc' = Some false /\
    next_review_time fc' = Some (7200000000 + 12 * 3600000000) /\
    (review_count fc', correct_count fc', wrong_count fc') = (1, 0, 1).
Proof.
  eexists _, _. split; [vm_compute; reflexivity|].
  split; [vm_compute; reflexivity|]. repeat split.
Qed.

(** Twenty minutes before the only card falls due the next check is in
    twenty minutes; once it is due, in five; an hour and a half before,
    in sixty. *)
Example next_check_delays :
  calculate_next_test_interval (frozen 6000000000) [demo_card] = 20 /\
  calculate_next_test_interval (frozen 7200000000) [demo_card] = 5 /\
  calculate_next_test_interval (frozen 1800000000) [demo_card] = 60 /\
  calculate_next_test_interval (frozen 7100000000) [demo_card] = 5.
Proof. repeat split. Qed.

(** * Properties of the rest of the engine *)

(** ** Dictionaries *)

Section DictFacts.
Context {K V : Type} (eqb : K -> K -> bool).
Hypothesis eqb_eq : forall a b, eqb a b = true <-> a = b.

Lemma eqb_same (a : K) : eqb a a = true.
Proof. apply eqb_eq. reflexivity. Qed.

Lemma eqb_differ (a b : K) : a <> b -> eqb a b = false.
Proof.
  intros H. destruct (eqb a b) eqn:E; [|reflexivity].
  apply eqb_eq in E. contradiction.
Qed.

Lemma dict_get_set_same (k : K) (v : V) (d : list (K * V)) :
  dict_get eqb k (dict_set eqb k v d) = Some v.
Proof.
  induction d as [|[k' v'] rest IH]; simpl.
  - rewrite eqb_same. reflexivity.
  - destruct (eqb k' k) eqn:E; simpl.
    + rewrite eqb_same. reflexivity.
    + rewrite E. exact IH.
Qed.

Lemma dict_get_set_other (k k' : K) (v : V) (d : list (K * V)) :
  k <> k' -> dict_get eqb k' (dict_set eqb k v d) = dict_get eqb k' d.
Proof.
  intros Hne. induction d as [|[k0 v0] rest IH]; simpl.
  - rewrite eqb_differ by exact Hne. reflexivity.
  - destruct (eqb k0 k) eqn:E; simpl.
    + apply eqb_eq in E. subst k0.
      rewrite !eqb_differ by exact Hne. reflexivity.
    + destruct (eqb k0 k'); [reflexivity | exact IH].
Qed.

Lemma dict_get_in_keys (k : K) (d : list (K * V)) :
  dict_get eqb k d <> None <-> In k (map fst d).
Proof.
  induction d as [|[k0 v0] rest IH]; simpl; [tauto|].
  destruct (eqb k0 k) eqn:E.
  - apply eqb_eq in E. split; [auto | discriminate].
  - rewrite IH. split; [auto|].
    intros [H | H]; [|exact H].
    apply eqb_eq in H. congruence.
Qed.

(** Assignment keeps the keys that are there in their places and puts a
    new key last. *)
Lemma dict_set_keys (k : K) (v : V) (d : list (K * V)) :
  map fst (dict_set eqb k v d)
  = match dict_get eqb k d with
    | Some _ => map fst d
    | None => map fst d ++ [k]
    end.
Proof.
  induction d as [|[k0 v0] rest IH]; simpl; [reflexivity|].
  destruct (eqb k0 k) eqn:E; simpl.
  - apply eqb_eq in E. subst. reflexivity.
  - rewrite IH. destruct (dict_get eqb k rest); reflexivity.
Qed.

Lemma dict_set_keys_nodup (k : K) (v : V) (d : list (K * V)) :
  NoDup (map fst d) -> NoDup (map fst (dict_set eqb k v d)).
Proof.
  intros Hnd. rewrite dict_set_keys.
  destruct (dict_get eqb k d) eqn:E; [exact Hnd|].
  apply NoDup_app; [exact Hnd | repeat constructor; simpl; tauto |].
  intros x Hx [<- | []].
  apply dict_get_in_keys in Hx. congruence.
Qed.
End DictFacts.

(** ** Authoring *)

Lemma last_rowid_ge (db : store) (r : FlashCard) :
  In r db -> id r <= last_rowid db.
Proof.
  unfold last_rowid. induction db as [|r0 db IH]; simpl; [tauto|].
  intros [-> | H]; [lia | specialize (IH H); lia].
Qed.

Lemma get_app (db l : store) (j : Z) :
  get_flashcard_by_id (db ++ l) j
  = match get_flashcard_by_id db j with
    | Some r => Some r
    | None => get_flashcard_by_id l j
    end.
Proof.
  unfold get_flashcard_by_id.
  induction db as [|r db IH]; simpl; [reflexivity|].
  destruct (id r =? j); [reflexivity | exact IH].
Qed.

Lemma get_none_fresh (db : store) (j : Z) :
  (forall r, In r db -> id r <> j) -> get_flashcard_by_id db j = None.
Proof.
  intros H. destruct (get_flashcard_by_id db j) as [r|] eqn:E; [|reflexivity].
  apply get_some_in in E. destruct E as [Hin Hid]. exfalso. eapply H; eauto.
Qed.

Lemma count_due_app (now : time) (db l : store) :
  count_due now (db ++ l) = count_due now db + count_due now l.
Proof. unfold count_due. rewrite filter_app, length_app. lia. Qed.

(** X1. Creating a card from a form that carries a word and a meaning
    returns a fresh id, larger than every id of the table and than the
    sequence counter; the card is found under that id, every other lookup
    is as before, and the card is seeded at stage 1, due 30 minutes after
    its creation, with score 100, interval 0.5 h, no last outcome and all
    counters 0; a missing example or tag is the empty string.  The
    table's constraints are kept. *)
Theorem create_flashcard_seeds (seq : Z) (now : time)
  (data : list (string * string)) (db : store) (w m : string) :
  dict_get String.eqb "word" data = Some w ->
  dict_get String.eqb "meaning" data = Some m ->
  exists new_id row,
    create_flashcard seq now data db = Returned (db ++ [row], new_id) /\
    seq < new_id /\
    (forall r, In r db -> id r < new_id) /\
    get_flashcard_by_id (db ++ [row]) new_id = Some row /\
    (forall j, j <> new_id ->
       get_flashcard_by_id (db ++ [row]) j = get_flashcard_by_id db j) /\
    (id row, word row, meaning row) = (new_id, w, m) /\
    example row
    = match dict_get String.eqb "example" data with Some e => e | None => "" end /\
    tag row
    = match dict_get String.eqb "tag" data with Some t => t | None => "" end /\
    stage_id row = 1 /\
    correct row = None /\
    created_at row = Some now /\
    last_reviewed_at row = None /\
    next_review_time row = Some (now + 1800000000) /\
    (review_count row, correct_count row, wrong_count row) = (0, 0, 0) /\
    (priority_score row == 100)%Q /\
    (interval_hours row == 1 # 2)%Q /\
    (unique_ids db -> unique_ids (db ++ [row])) /\
    (check_ok db -> check_ok (db ++ [row])).
Proof.
  intros Hw Hm. unfold create_flashcard. rewrite Hw, Hm.
  set (new_id := next_rowid seq db).
  assert (Hfresh : forall r, In r db -> id r < new_id).
  { intros r Hr. apply last_rowid_ge in Hr. unfold new_id, next_rowid. lia. }
  eexists new_id, _. split; [reflexivity|].
  split; [unfold new_id, next_rowid; lia|].
  split; [exact Hfresh|].
  split.
  { rewrite get_app, get_none_fresh.
    - unfold get_flashcard_by_id. simpl. rewrite Z.eqb_refl. reflexivity.
    - intros r Hr. specialize (Hfresh r Hr). lia. }
  split.
  { intros j Hj. rewrite get_app.
    destruct (get_flashcard_by_id db j); [reflexivity|].
    unfold get_flashcard_by_id. simpl.
    destruct (new_id =? j) eqn:E; [apply Z.eqb_eq in E; congruence | reflexivity]. }
  repeat (split; [reflexivity|]).
  split.
  - unfold unique_ids. intros Hnd. rewrite map_app. simpl.
    apply NoDup_app; [exact Hnd | repeat constructor; simpl; tauto |].
    intros x Hx [<- | []].
    apply in_map_iff in Hx. destruct Hx as [r [Hid Hr]].
    specialize (Hfresh r Hr). lia.
  - unfold check_ok. intros Hok. apply Forall_app. split; [exact Hok|].
    repeat constructor.
Qed.

Lemma create_flashcard_seeds_witness :
  exists new_id row,
    create_flashcard 2 7200000000
      [("word", "drop"); ("meaning", "a small amount of liquid")]
      [early_card; late_wrong_card]
    = Returned ([early_card; late_wrong_card] ++ [row], new_id) /\
    new_id = 3 /\
    get_flashcard_by_id ([early_card; late_wrong_card] ++ [row]) 3 = Some row /\
    next_review_time row = Some 9000000000 /\
    example row = "".
Proof.
  destruct (create_flashcard_seeds 2 7200000000
              [("word", "drop"); ("meaning", "a small amount of liquid")]
              [early_card; late_wrong_card] "drop" "a small amount of liquid"
              eq_refl eq_refl)
    as [new_id [row [H1 [_ [_ [H2 [_ [_ [H3 [_ [_ [_ [_ [_ [H4 _]]]]]]]]]]]]]]].
  assert (Hid : new_id = 3).
  { vm_compute in H1. inversion H1. reflexivity. }
  subst new_id. exists 3, row. repeat split; assumption.
Defined.

(** X2. A form without the key 'word', or without 'meaning', makes
    [create_flashcard] raise [KeyError]; nothing is written, whatever the
    other entries are. *)
Theorem create_flashcard_missing_key (seq : Z) (now : time)
  (data : list (string * string)) (db : store) :
  dict_get String.eqb "word" data = None \/
  dict_get String.eqb "meaning" data = None ->
  create_flashcard seq now data db = Raised KeyError db.
Proof.
  unfold create_flashcard. intros [H | H]; rewrite H.
  - reflexivity.
  - destruct (dict_get String.eqb "word" data); reflexivity.
Qed.

Lemma create_flashcard_missing_key_witness :
  create_flashcard 0 7200000000 [("word", "drop"); ("tag", "water")] [demo_card]
  = Raised KeyError [demo_card].
Proof.
  apply (create_flashcard_missing_key 0 7200000000
           [("word", "drop"); ("tag", "water")] [demo_card]).
  right. reflexivity.
Defined.

(** X3. A new card is not due before 30 minutes have passed and is due
    from then on: at any instant the due count of the table grows by one
    exactly when that instant is at least 30 minutes after the creation.
    And for the first card of an empty table the next check, computed at
    the creation time, falls 30 minutes later. *)
Theorem new_card_due_after_30_minutes (seq : Z) (now : time)
  (data : list (string * string)) (db : store) (w m : string) :
  dict_get String.eqb "word" data = Some w ->
  dict_get String.eqb "meaning" data = Some m ->
  exists db' new_id,
    create_flashcard seq now data db = Returned (db', new_id) /\
    (forall t,
       count_due t db'
       = count_due t db + (if now + 1800000000 <=? t then 1 else 0)) /\
    (db = [] -> calculate_next_test_interval (frozen now) db' = 30).
Proof.
  intros Hw Hm. unfold create_flashcard. rewrite Hw, Hm.
  match goal with
  | |- context [Returned (db ++ [?r], ?n)] => set (row := r); set (new_id := n)
  end.
  assert (Hnext : next_review_time row = Some (now + 1800000000)) by reflexivity.
  clearbody row.
  exists (db ++ [row]), new_id. split; [reflexivity|].
  assert (Hone : forall t,
             count_due t [row] = if now + 1800000000 <=? t then 1 else 0).
  { intros t. unfold count_due, due_at. simpl. rewrite Hnext.
    destruct (now + 1800000000 <=? t); reflexivity. }
  split.
  - intros t. rewrite count_due_app, Hone. reflexivity.
  - intros ->. simpl app. unfold calculate_next_test_interval, frozen.
    rewrite Hone.
    assert (Hlate : (now + 1800000000 <=? now) = false) by (apply Z.leb_gt; lia).
    rewrite Hlate. cbn [Z.eqb].
    unfold earliest_upcoming. rewrite Hnext.
    assert (Hsoon : (now <? now + 1800000000) = true) by (apply Z.ltb_lt; lia).
    rewrite Hsoon.
    replace (now + 1800000000 - now) with 1800000000 by lia.
    reflexivity.
Qed.

Lemma new_card_due_after_30_minutes_witness :
  exists db' new_id,
    create_flashcard 0 7200000000
      [("word", "drop"); ("meaning", "a small amount of liquid")] []
    = Returned (db', new_id) /\
    count_due 8999999999 db' = 0 /\
    count_due 9000000000 db' = 1 /\
    calculate_next_test_interval (frozen 7200000000) db' = 30.
Proof.
  destruct (new_card_due_after_30_minutes 0 7200000000
              [("word", "drop"); ("meaning", "a small amount of liquid")] []
              "drop" "a small amount of liquid" eq_refl eq_refl)
    as [db' [new_id [H1 [H2 H3]]]].
  exists db', new_id. split; [exact H1|].
  split; [rewrite H2; reflexivity|].
  split; [rewrite H2; reflexivity|].
  apply H3. reflexivity.
Defined.

(** ** A review as a row-wise write *)

Lemma update_where_compose (i : Z) (f g : FlashCard -> FlashCard) (db : store) :
  (forall r, id (f r) = id r) ->
  update_where i g (update_where i f db)
  = update_where i (fun r => g (f r)) db.
Proof.
  intros Hid. unfold update_where. rewrite map_map.
  apply map_ext. intros r.
  destruct (id r =? i) eqn:E; [rewrite Hid, E | rewrite E]; reflexivity.
Qed.

Lemma update_where_forall2 (P : FlashCard -> FlashCard -> Prop)
  (Q : FlashCard -> Prop) (i : Z) (f : FlashCard -> FlashCard) (db : store) :
  Forall Q db ->
  (forall r, Q r -> id r = i -> P r (f r)) ->
  (forall r, Q r -> P r r) ->
  Forall2 P db (update_where i f db).
Proof.
  intros HQ Hf Hrefl. unfold update_where.
  induction HQ as [|r db Hr _ IH]; simpl; constructor; [|exact IH].
  destruct (id r =? i) eqn:E; [apply Z.eqb_eq in E|]; auto.
Qed.

(** The table a review of a present row returns is the old table with
    one write [f] applied to the rows of that id; [f] keeps the content
    columns and the [CHECK], and for a result other than "True" and
    "False" it keeps the due time as well. *)
Lemma review_shape (clk : clock) (db : store) (i : Z) (result : string)
  (fc : FlashCard) :
  get_flashcard_by_id db i = Some fc ->
  stage_check (stage_id fc) = true ->
  exists f,
    update_flashcard_after_review clk db i result
    = Returned (update_where i f db) /\
    (forall r, content_kept r (f r)) /\
    (forall r, stage_check (stage_id r) = true ->
               stage_check (stage_id (f r)) = true) /\
    (result <> "True" -> result <> "False" ->
     forall r, next_review_time (f r) = next_review_time r).
Proof.
  intros Hget Hok.
  assert (Hnew : stage_check (Z.min (stage_id fc + 1) 4) = true).
  { apply stage_check_range. apply stage_check_range in Hok. lia. }
  assert (Hstep : forall t f0,
             (forall r, id (f0 r) = id r) ->
             stage_check (stage_id (f0 fc)) = true ->
             exists s,
               _update_priority_score t i (update_where i f0 db)
               = Returned (update_where i (fun r => set_priority_score s (f0 r)) db)).
  { intros t f0 Hid Hst.
    assert (Hget1 : get_flashcard_by_id (update_where i f0 db) i = Some (f0 fc)).
    { rewrite get_update_where by exact Hid. rewrite Hget. reflexivity. }
    destruct (update_priority_present t i _ _ Hget1 Hst) as [s [_ Hupd]].
    exists s. rewrite Hupd. rewrite update_where_compose by exact Hid.
    reflexivity. }
  unfold update_flashcard_after_review. rewrite Hget.
  destruct (result =? "TIMEOUT")%string eqn:Et.
  { match goal with
    | |- context [update_where i ?f0 db] =>
        destruct (Hstep (clk 1%nat) f0) as [s Hs]; [reflexivity | exact Hok |]
    end.
    eexists. split; [exact Hs|]. repeat split; auto. }
  destruct (result =? "ESCAPE")%string eqn:Ee.
  { match goal with
    | |- context [update_where i ?f0 db] =>
        destruct (Hstep (clk 1%nat) f0) as [s Hs]; [reflexivity | exact Hok |]
    end.
    eexists. split; [exact Hs|]. repeat split; auto. }
  destruct (result =? "True")%string eqn:ET.
  { rewrite Hnew.
    match goal with
    | |- context [update_where i ?f0 db] =>
        destruct (Hstep (clk 2%nat) f0) as [s Hs]; [reflexivity | exact Hnew |]
    end.
    eexists. split; [exact Hs|]. repeat split; auto.
    intros Hne. apply String.eqb_eq in ET. contradiction. }
  destruct (result =? "False")%string eqn:EF.
  { match goal with
    | |- context [update_where i ?f0 db] =>
        destruct (Hstep (clk 2%nat) f0) as [s Hs]; [reflexivity | exact Hok |]
    end.
    eexists. split; [exact Hs|]. repeat split; auto.
    intros _ Hne. apply String.eqb_eq in EF. contradiction. }
  destruct (Hstep (clk 2%nat) (fun r => r)) as [s Hs]; [reflexivity | exact Hok |].
  rewrite update_where_id in Hs.
  eexists. split; [exact Hs|]. repeat split; auto.
Qed.

Lemma update_where_ids (i : Z) (f : FlashCard -> FlashCard) (db : store) :
  (forall r, id (f r) = id r) -> map id (update_where i f db) = map id db.
Proof.
  intros Hid. unfold update_where. rewrite map_map. apply map_ext.
  intros r. destruct (id r =? i); [apply Hid | reflexivity].
Qed.

Lemma update_where_check_ok (i : Z) (f : FlashCard -> FlashCard) (db : store) :
  (forall r, stage_check (stage_id r) = true ->
             stage_check (stage_id (f r)) = true) ->
  check_ok db -> check_ok (update_where i f db).
Proof.
  intros Hf Hok. unfold check_ok, update_where in *.
  induction Hok as [|r db Hr _ IH]; simpl; constructor; [|exact IH].
  destruct (id r =? i); auto.
Qed.

(** What a review returns on a table that passes its [CHECK], whether the
    id is there or not. *)
Lemma review_returns (clk : clock) (db : store) (i : Z) (result : string) :
  check_ok db ->
  exists f,
    update_flashcard_after_review clk db i result
    = Returned (update_where i f db) /\
    (forall r, content_kept r (f r)) /\
    (forall r, stage_check (stage_id r) = true ->
               stage_check (stage_id (f r)) = true) /\
    (result <> "True" -> result <> "False" ->
     forall r, next_review_time (f r) = next_review_time r).
Proof.
  intros Hok. destruct (get_flashcard_by_id db i) as [fc|] eqn:Hget.
  - apply (review_shape clk db i result fc Hget).
    eapply check_ok_get; eauto.
  - exists (fun r => r). rewrite update_where_id. split.
    + unfold update_flashcard_after_review. rewrite Hget. reflexivity.
    + repeat split; auto.
Qed.

(** X4. A review touches one row.  On a table that passes its [CHECK],
    [update_flashcard_after_review] returns, whatever the id and the
    result string; the rows of every other id are left exactly as they
    were, no row changes its id, word, meaning, example, tag or creation
    time, no row is added or removed, and the table still passes its
    [CHECK] and keeps its ids unique. *)
Theorem review_touches_one_row (clk : clock) (db : store) (i : Z)
  (result : string) :
  check_ok db ->
  exists db',
    update_flashcard_after_review clk db i result = Returned db' /\
    Forall2 (fun r r' => content_kept r r' /\ (id r <> i -> r' = r)) db db' /\
    check_ok db' /\
    (unique_ids db -> unique_ids db').
Proof.
  intros Hok.
  destruct (review_returns clk db i result Hok) as [f [Hret [Hkeep [Hst _]]]].
  exists (update_where i f db). split; [exact Hret|]. split; [|split].
  - apply (update_where_forall2 _ (fun _ => True)).
    + apply Forall_forall. auto.
    + intros r _ Hid. split; [apply Hkeep | intros Hne; contradiction].
    + intros r _. split; [reflexivity | auto].
  - apply update_where_check_ok; assumption.
  - unfold unique_ids. rewrite update_where_ids; [auto|].
    intros r. specialize (Hkeep r). unfold content_kept in Hkeep.
    inversion Hkeep. reflexivity.
Qed.

Lemma review_touches_one_row_witness :
  exists db',
    update_flashcard_after_review (frozen 7200000000)
      [early_card; late_wrong_card] 2 "True" = Returned db' /\
    Forall2 (fun r r' => content_kept r r' /\ (id r <> 2 -> r' = r))
      [early_card; late_wrong_card] db' /\
    check_ok db'.
Proof.
  destruct (review_touches_one_row (frozen 7200000000)
              [early_card; late_wrong_card] 2 "True" check_ok_pair)
    as [db' [H1 [H2 [H3 _]]]].
  exists db'. auto.
Defined.

(** One review, with the score it writes: the scorer's value on the
    reviewed row at the last clock reading of the call. *)
Lemma review_step_scored (clk : clock) (db : store) (i : Z) (result : string)
  (fc : FlashCard) :
  get_flashcard_by_id db i = Some fc ->
  stage_check (stage_id fc) = true ->
  exists db' s,
    update_flashcard_after_review clk db i result = Returned db' /\
    get_flashcard_by_id db' i
    = Some (set_priority_score s (reviewed clk result fc)) /\
    _calculate_priority_score
      (clk (if is_non_answer result then 1%nat else 2%nat))
      (reviewed clk result fc) = Some s.
Proof.
  intros Hget Hok.
  unfold update_flashcard_after_review, reviewed, is_non_answer.
  rewrite Hget.
  destruct (result =? "TIMEOUT")%string eqn:Et; simpl orb; cbv iota.
  { match goal with
    | |- context [update_where i ?f db] =>
        destruct (update_then_score (clk 1%nat) i f db fc)
          as [db' [s [H1 [H2 [H3 _]]]]]; auto
    end.
    exists db', s. auto. }
  destruct (result =? "ESCAPE")%string eqn:Ee; cbv iota.
  { match goal with
    | |- context [update_where i ?f db] =>
        destruct (update_then_score (clk 1%nat) i f db fc)
          as [db' [s [H1 [H2 [H3 _]]]]]; auto
    end.
    exists db', s. auto. }
  destruct (result =? "True")%string eqn:ET.
  { assert (Hnew : stage_check (Z.min (stage_id fc + 1) 4) = true).
    { apply stage_check_range. apply stage_check_range in Hok. lia. }
    rewrite Hnew.
    match goal with
    | |- context [update_where i ?f db] =>
        destruct (update_then_score (clk 2%nat) i f db fc)
          as [db' [s [H1 [H2 [H3 _]]]]]; auto
    end.
    exists db', s. auto. }
  destruct (result =? "False")%string eqn:EF.
  { match goal with
    | |- context [update_where i ?f db] =>
        destruct (update_then_score (clk 2%nat) i f db fc)
          as [db' [s [H1 [H2 [H3 _]]]]]; auto
    end.
    exists db', s. auto. }
  destruct (update_then_score (clk 2%nat) i (fun r => r) db fc)
    as [db' [s [H1 [H2 [H3 _]]]]]; auto.
  rewrite update_where_id in H1.
  exists db', s. auto.
Qed.

(** X5. The cached score is fresh after a review.  For a card of the
    store, after [update_flashcard_after_review] with any result string
    the stored [priority_score] is the value the scorer gives for the
    stored row at the last clock reading of the call (the second reading
    for "TIMEOUT" and "ESCAPE", the third otherwise). *)
Theorem review_refreshes_score (clk : clock) (db : store) (i : Z)
  (result : string) (fc : FlashCard) :
  check_ok db ->
  get_flashcard_by_id db i = Some fc ->
  exists db' fc',
    update_flashcard_after_review clk db i result = Returned db' /\
    get_flashcard_by_id db' i = Some fc' /\
    _calculate_priority_score
      (clk (if is_non_answer result then 1%nat else 2%nat)) fc'
    = Some (priority_score fc').
Proof.
  intros Hok Hget.
  pose proof (check_ok_get _ _ _ Hok Hget) as Hst.
  destruct (review_step_scored clk db i result fc Hget Hst)
    as [db' [s [Hret [Hrow Hs]]]].
  exists db', (set_priority_score s (reviewed clk result fc)).
  split; [exact Hret|]. split; [exact Hrow|].
  cbn [priority_score set_priority_score]. rewrite <- Hs.
  apply score_ext; reflexivity.
Qed.

Lemma review_refreshes_score_witness :
  exists db' fc',
    update_flashcard_after_review (frozen 9000000000) [demo_card] 1 "False"
    = Returned db' /\
    get_flashcard_by_id db' 1 = Some fc' /\
    _calculate_priority_score 9000000000 fc' = Some (priority_score fc').
Proof.
  destruct (review_refreshes_score (frozen 9000000000) [demo_card] 1 "False"
              demo_card check_ok_demo eq_refl)
    as [db' [fc' [H1 [H2 H3]]]].
  exists db', fc'. auto.
Defined.

(** The delay an answer schedules, in microseconds: between a quarter of
    an hour (wrong at stage 1) and 252 hours (right at stage 4). *)
Lemma answer_delay_bounds (fc : FlashCard) (result : string) :
  stage_check (stage_id fc) = true ->
  result = "True" \/ result = "False" ->
  900000000 <= timedelta_hours (_calculate_next_interval fc result)
            <= 907200000000 /\
  (_calculate_next_interval fc result * 3600000000
   == inject_Z (timedelta_hours (_calculate_next_interval fc result)))%Q.
Proof.
  intros Hok Hres. apply stage_check_range in Hok.
  assert (Hs : stage_id fc = 1 \/ stage_id fc = 2 \/ stage_id fc = 3 \/
               stage_id fc = 4) by lia.
  unfold _calculate_next_interval.
  destruct Hs as [-> | [-> | [-> | ->]]]; destruct Hres as [-> | ->];
    vm_compute; repeat split; discriminate.
Qed.

(** X6. An answer moves the due time into the future.  After a review
    with the result "True" or "False" the card is due at the first clock
    reading plus the new interval, which is stored in [interval_hours]
    and lies between 15 minutes and 252 hours; the card is therefore not
    due at that reading. *)
Theorem answer_reschedules (clk : clock) (db : store) (i : Z) (result : string)
  (fc : FlashCard) :
  check_ok db ->
  get_flashcard_by_id db i = Some fc ->
  result = "True" \/ result = "False" ->
  exists db' fc' d,
    update_flashcard_after_review clk db i result = Returned db' /\
    get_flashcard_by_id db' i = Some fc' /\
    next_review_time fc' = Some (clk 0%nat + d) /\
    900000000 <= d <= 907200000000 /\
    (interval_hours fc' * 3600000000 == inject_Z d)%Q /\
    due_at (clk 0%nat) fc' = false.
Proof.
  intros Hok Hget Hres.
  pose proof (check_ok_get _ _ _ Hok Hget) as Hst.
  destruct (review_step clk db i result fc Hget Hst) as [db' [s [Hret [Hrow _]]]].
  destruct (answer_delay_bounds fc result Hst Hres) as [Hb Hq].
  exists db', (set_priority_score s (reviewed clk result fc)),
    (timedelta_hours (_calculate_next_interval fc result)).
  split; [exact Hret|]. split; [exact Hrow|].
  assert (Hn : next_review_time (reviewed clk result fc)
               = Some (clk 0%nat
                       + timedelta_hours (_calculate_next_interval fc result))
               /\ interval_hours (reviewed clk result fc)
                  = _calculate_next_interval fc result).
  { destruct Hres as [-> | ->]; split; reflexivity. }
  destruct Hn as [Hn Hi].
  cbn [next_review_time interval_hours set_priority_score].
  rewrite Hi. split; [exact Hn|]. split; [exact Hb|]. split; [exact Hq|].
  unfold due_at. cbn [next_review_time set_priority_score]. rewrite Hn.
  apply Z.leb_gt. lia.
Qed.

Lemma answer_reschedules_witness :
  exists db' fc' d,
    update_flashcard_after_review (frozen 9000000000) [demo_card] 1 "True"
    = Returned db' /\
    get_flashcard_by_id db' 1 = Some fc' /\
    next_review_time fc' = Some (9000000000 + d) /\
    900000000 <= d <= 907200000000 /\
    due_at 9000000000 fc' = false.
Proof.
  destruct (answer_reschedules (frozen 9000000000) [demo_card] 1 "True"
              demo_card check_ok_demo eq_refl (or_introl eq_refl))
    as [db' [fc' [d [H1 [H2 [H3 [H4 [_ H5]]]]]]]].
  exists db', fc', d. auto.
Defined.

(** X7. Consecutive correct answers.  After n reviews in a row with the
    result "True" a card of stage s stands at stage [min (s + n) 4] with
    n more correct answers counted and no wrong one: three correct
    answers take a new card to the last stage, where it stays. *)
Theorem consecutive_correct_answers (clks : list clock) :
  forall (db : store) (i : Z) (fc : FlashCard),
    check_ok db ->
    get_flashcard_by_id db i = Some fc ->
    exists db' fc',
      review_sequence db i (map (fun clk => (clk, "True")) clks) = Returned db' /\
      get_flashcard_by_id db' i = Some fc' /\
      stage_id fc' = Z.min (stage_id fc + Z.of_nat (List.length clks)) 4 /\
      correct_count fc' = correct_count fc + Z.of_nat (List.length clks) /\
      wrong_count fc' = wrong_count fc.
Proof.
  intros db i fc Hok Hget.
  pose proof (check_ok_get _ _ _ Hok Hget) as Hst. clear Hok.
  revert db fc Hget Hst.
  induction clks as [|clk rest IH]; intros db fc Hget Hst.
  - exists db, fc. simpl. apply stage_check_range in Hst.
    repeat split; auto; lia.
  - destruct (review_step clk db i "True" fc Hget Hst) as [db1 [s [Hret [Hrow _]]]].
    pose proof (reviewed_stage_ok clk "True" fc Hst) as Hst1.
    destruct (IH db1 _ Hrow Hst1) as [db' [fc' [Hseq [Hget' [Hs [Hc Hw]]]]]].
    exists db', fc'. cbn [map review_sequence]. rewrite Hret.
    split; [exact Hseq|]. split; [exact Hget'|].
    cbn [stage_id correct_count wrong_count set_priority_score] in Hs, Hc, Hw.
    rewrite reviewed_stage in Hs. simpl String.eqb in Hs.
    apply stage_check_range in Hst.
    cbn [List.length]. repeat split.
    + rewrite Hs. lia.
    + rewrite Hc. simpl. lia.
    + rewrite Hw. reflexivity.
Qed.

Lemma consecutive_correct_answers_witness :
  exists db' fc',
    review_sequence [apple_twin] 2
      (map (fun clk => (clk, "True"))
         [frozen 1800000000; frozen 5400000000; frozen 19800000000])
    = Returned db' /\
    get_flashcard_by_id db' 2 = Some fc' /\
    stage_id fc' = 4.
Proof.
  destruct (consecutive_correct_answers
              [frozen 1800000000; frozen 5400000000; frozen 19800000000]
              [apple_twin] 2 apple_twin)
    as [db' [fc' [H1 [H2 [H3 _]]]]].
  - repeat constructor.
  - reflexivity.
  - exists db', fc'. auto.
Defined.

(** ** The scorer's range *)

Lemma overdue_bonus_range (now : time) (due : option time) :
  (0 <= Spec.overdueBonus now due <= 50)%Q.
Proof.
  unfold Spec.overdueBonus, Spec.overdueHours. split.
  - apply Q.min_glb; [|discriminate].
    destruct due as [t|]; [|discriminate].
    pose proof (Q.le_max_l 0 (hours_of (now - t))). lra.
  - apply Q.le_min_r.
Qed.

(** X8. The scorer's domain and range.  [_calculate_priority_score]
    raises [KeyError] exactly for a stage outside {1,2,3,4}; otherwise
    its value lies between the stage's base and the base plus 100, hence
    between 40 and 200; it is at least 120 at stage 1 and at most 120 at
    stage 4. *)
Theorem priority_score_range (now : time) (fc : FlashCard) :
  (stage_check (stage_id fc) = false ->
   _calculate_priority_score now fc = None) /\
  (stage_check (stage_id fc) = true ->
   exists s,
     _calculate_priority_score now fc = Some s /\
     (Spec.base (stage_id fc) <= s <= Spec.base (stage_id fc) + 100)%Q /\
     (40 <= s <= 200)%Q /\
     (stage_id fc = 1 -> (120 <= s)%Q) /\
     (stage_id fc = 4 -> (s <= 120)%Q)).
Proof.
  split.
  - intros Hbad. unfold _calculate_priority_score, stage_priority.
    unfold stage_check in Hbad. rewrite !orb_false_iff in Hbad.
    destruct Hbad as [[[-> ->] ->] ->]. reflexivity.
  - intros Hok. apply stage_check_range in Hok.
    unfold _calculate_priority_score.
    rewrite (stage_priority_spec _ Hok).
    eexists. split; [reflexivity|].
    pose proof (overdue_bonus_spec now (next_review_time fc)) as Hbonus.
    set (bonus := match next_review_time fc with
                  | Some next_review =>
                      if next_review <=? now
                      then Qmin (hours_of (now - next_review) * 5) 50
                      else 0%Q
                  | None => 0%Q
                  end) in *.
    fold (Spec.wrongPenaltyBoost (correct fc)).
    fold (Spec.freshnessBonus (stage_id fc)).
    pose proof (overdue_bonus_range now (next_review_time fc)) as [Hb0 Hb1].
    assert (Hw : (0 <= Spec.wrongPenaltyBoost (correct fc) <= 30)%Q).
    { unfold Spec.wrongPenaltyBoost.
      destruct (correct fc) as [[|]|]; split; discriminate. }
    assert (Hstage : stage_id fc = 1 \/ stage_id fc = 2 \/ stage_id fc = 3 \/
                     stage_id fc = 4) by lia.
    destruct Hstage as [E | [E | [E | E]]]; rewrite E;
      unfold Spec.base, Spec.freshnessBonus; simpl;
      repeat split; intros; try lra; try lia.
Qed.

(** ** The due-set query *)

Lemma get_due_frozen_rows (now : time) (db : store) (limit : Z) :
  check_ok db -> unique_ids db ->
  exists db',
    get_due_flashcards (frozen now) db limit
    = Returned (db', sql_limit limit
                       (order_by due_order (filter (due_at now) db'))) /\
    Forall2 (fun r r' => exists s,
                 _calculate_priority_score now r = Some s /\
                 r' = set_priority_score s r) db db'.
Proof.
  intros Hok Hnd.
  destruct (rescore_rows_frozen now db 0%nat [] Hnd Hok) as [db' [Hrun Hrel]].
  exists db'. simpl app in Hrun. split; [|exact Hrel].
  unfold get_due_flashcards, _update_all_priority_scores.
  rewrite Hrun. reflexivity.
Qed.

Lemma count_due_rescored (now : time) (db db' : store) :
  Forall2 (fun r r' => exists s, r' = set_priority_score s r) db db' ->
  count_due now db' = count_due now db.
Proof.
  unfold count_due. intros H. f_equal.
  induction H as [|r r' l l' [s ->] _ IH]; [reflexivity|].
  cbn [filter].
  change (due_at now (set_priority_score s r)) with (due_at now r).
  destruct (due_at now r); cbn [List.length]; congruence.
Qed.

Lemma sql_limit_length {A : Type} (n : Z) (l : list A) :
  Z.of_nat (List.length (sql_limit n l))
  = if n <? 0 then Z.of_nat (List.length l)
    else Z.min n (Z.of_nat (List.length l)).
Proof.
  unfold sql_limit. destruct (n <? 0) eqn:E; [reflexivity|].
  apply Z.ltb_ge in E. rewrite length_firstn. lia.
Qed.

(** X9. The contract of the due-set query.  With the clock held at
    [now], on a table that satisfies its constraints,
    [get_due_flashcards] returns; the table it leaves differs from the
    old one in the cached scores only; every returned row is a row of
    that table and is due at [now]; and the number of returned rows is
    the smaller of [limit] and the number of due rows (all due rows for a
    negative [limit]), so the result is empty exactly when nothing is
    due or [limit] is 0. *)
Theorem due_set_contract (now : time) (db : store) (limit : Z) :
  check_ok db -> unique_ids db ->
  exists db' res,
    get_due_flashcards (frozen now) db limit = Returned (db', res) /\
    Forall2 (fun r r' => exists s, r' = set_priority_score s r) db db' /\
    (forall a, In a res -> In a db' /\ due_at now a = true) /\
    Z.of_nat (List.length res)
    = (if limit <? 0 then count_due now db
       else Z.min limit (count_due now db)).
Proof.
  intros Hok Hnd.
  destruct (get_due_frozen_rows now db limit Hok Hnd) as [db' [Hret Hrel]].
  eexists db', _. split; [exact Hret|].
  assert (Hrel' : Forall2 (fun r r' => exists s, r' = set_priority_score s r)
                    db db').
  { clear Hret. induction Hrel as [|r r' l l' [s [_ ->]] _ IH];
      constructor; eauto.
    apply IH.
    - inversion Hok; assumption.
    - unfold unique_ids in *. simpl in Hnd. inversion Hnd; assumption. }
  split; [exact Hrel'|]. split.
  - intros a Ha. apply sql_limit_in in Ha. apply order_by_in in Ha.
    apply filter_In in Ha. exact Ha.
  - rewrite sql_limit_length.
    rewrite (Permutation_length (order_by_perm due_order _)).
    fold (count_due now db'). rewrite (count_due_rescored now db db' Hrel').
    reflexivity.
Qed.

Lemma due_set_contract_witness :
  exists db' res,
    get_due_flashcards (frozen 4000000000) [early_card; late_wrong_card] 5
    = Returned (db', res) /\
    (forall a, In a res -> In a db' /\ due_at 4000000000 a = true) /\
    List.length res = 1%nat.
Proof.
  destruct (due_set_contract 4000000000 [early_card; late_wrong_card] 5
              check_ok_pair unique_ids_pair)
    as [db' [res [H1 [_ [H2 H3]]]]].
  exists db', res. split; [exact H1|]. split; [exact H2|].
  apply Nat2Z.inj. rewrite H3. reflexivity.
Defined.

(** A score of stage 1 is at least 120, a score of stage 4 at most 120. *)
Lemma score_first_and_last_stage (now : time) (fc : FlashCard) (s : Q) :
  _calculate_priority_score now fc = Some s ->
  (stage_id fc = 1 -> (120 <= s)%Q) /\ (stage_id fc = 4 -> (s <= 120)%Q).
Proof.
  unfold _calculate_priority_score. intros H.
  pose proof (overdue_bonus_spec now (next_review_time fc)) as Hbonus.
  pose proof (overdue_bonus_range now (next_review_time fc)) as [Hb0 Hb1].
  set (bonus := match next_review_time fc with
                | Some next_review =>
                    if next_review <=? now
                    then Qmin (hours_of (now - next_review) * 5) 50
                    else 0%Q
                | None => 0%Q
                end) in *.
  assert (Hw : (0 <= match correct fc with Some false => 30 | _ => 0 end <= 30)%Q).
  { destruct (correct fc) as [[|]|]; split; discriminate. }
  split; intros E; rewrite E in H; simpl in H; inversion H; lra.
Qed.

(** X10. The order of the due set.  With the clock held at [now], the
    returned rows stand in descending order of their freshly computed
    scores, and a row of stage 1 stands before every row of stage 4:
    a new card is never queued behind a card of the last stage. *)
Theorem due_set_order (now : time) (db : store) (limit : Z) :
  check_ok db -> unique_ids db ->
  exists db' res,
    get_due_flashcards (frozen now) db limit = Returned (db', res) /\
    (forall a, In a res ->
       _calculate_priority_score now a = Some (priority_score a)) /\
    (forall (i j : nat) (a b : FlashCard),
       (i < j)%nat -> nth_error res i = Some a -> nth_error res j = Some b ->
       (priority_score b <= priority_score a)%Q) /\
    (forall (i j : nat) (a b : FlashCard),
       nth_error res i = Some a -> nth_error res j = Some b ->
       stage_id a = 1 -> stage_id b = 4 -> (i < j)%nat).
Proof.
  intros Hok Hnd.
  destruct (get_due_frozen now db limit Hok Hnd) as [db' [Hret Hscores]].
  eexists db', _. split; [exact Hret|].
  assert (Hin : forall a,
             In a (sql_limit limit
                     (order_by due_order (filter (due_at now) db'))) ->
             _calculate_priority_score now a = Some (priority_score a)).
  { intros a Ha. apply sql_limit_in in Ha. apply order_by_in in Ha.
    apply filter_In in Ha. destruct Ha as [Ha _].
    rewrite Forall_forall in Hscores. auto. }
  assert (Hord : forall (i j : nat) (a b : FlashCard),
             (i < j)%nat ->
             nth_error (sql_limit limit
                          (order_by due_order (filter (due_at now) db'))) i
             = Some a ->
             nth_error (sql_limit limit
                          (order_by due_order (filter (due_at now) db'))) j
             = Some b ->
             due_order a b = true).
  { intros i j a b Hij Ha Hb. apply sql_limit_nth in Ha, Hb.
    exact (sorted_nth due_order _
             (order_by_sorted due_order due_order_total due_order_trans _)
             i j a b Hij Ha Hb). }
  split; [exact Hin|]. split.
  - intros i j a b Hij Ha Hb.
    pose proof (Hord i j a b Hij Ha Hb) as H.
    apply due_order_iff in H. destruct H as [H | [H _]]; lra.
  - intros i j a b Ha Hb Sa Sb.
    destruct (Nat.lt_trichotomy i j) as [Hij | [Hij | Hij]]; [exact Hij | |].
    + subst j. rewrite Ha in Hb. inversion Hb; subst b. lia.
    + exfalso.
      pose proof (Hord j i b a Hij Hb Ha) as H.
      pose proof (Hin a (nth_error_In _ _ Ha)) as Ea.
      pose proof (Hin b (nth_error_In _ _ Hb)) as Eb.
      destruct (score_first_and_last_stage now a _ Ea) as [Ha1 _].
      destruct (score_first_and_last_stage now b _ Eb) as [_ Hb4].
      specialize (Ha1 Sa). specialize (Hb4 Sb).
      apply due_order_iff in H.
      destruct H as [H | [_ [H | [H _]]]]; [lra | lia | lia].
Qed.

Lemma due_set_order_witness :
  exists db' res,
    get_due_flashcards (frozen 7200000000) [early_card; late_wrong_card] 5
    = Returned (db', res) /\
    (forall (i j : nat) (a b : FlashCard),
       (i < j)%nat -> nth_error res i = Some a -> nth_error res j = Some b ->
       (priority_score b <= priority_score a)%Q).
Proof.
  destruct (due_set_order 7200000000 [early_card; late_wrong_card] 5
              check_ok_pair unique_ids_pair)
    as [db' [res [H1 [_ [H2 _]]]]].
  exists db', res. auto.
Defined.

(** ** Non-answers and the next check *)

Lemma update_where_count_due (t : time) (i : Z) (f : FlashCard -> FlashCard)
  (db : store) :
  (forall r, next_review_time (f r) = next_review_time r) ->
  count_due t (update_where i f db) = count_due t db.
Proof.
  intros Hf. unfold count_due, update_where. f_equal.
  induction db as [|r db IH]; [reflexivity|]. cbn [map filter].
  assert (E : due_at t (if id r =? i then f r else r) = due_at t r).
  { unfold due_at. destruct (id r =? i); [rewrite Hf|]; reflexivity. }
  rewrite E. destruct (due_at t r); cbn [List.length]; congruence.
Qed.

Lemma update_where_earliest_upcoming (t : time) (i : Z)
  (f : FlashCard -> FlashCard) (db : store) :
  (forall r, next_review_time (f r) = next_review_time r) ->
  earliest_upcoming t (update_where i f db) = earliest_upcoming t db.
Proof.
  intros Hf. unfold update_where.
  induction db as [|r db IH]; [reflexivity|]. cbn [map earliest_upcoming].
  assert (E : next_review_time (if id r =? i then f r else r)
              = next_review_time r).
  { destruct (id r =? i); [apply Hf | reflexivity]. }
  rewrite E, IH. reflexivity.
Qed.

(** X11. A non-answer changes nothing for the scheduler.  After a review
    with a result other than "True" and "False" (a timeout, a cancel, an
    unrecognised string), of any id, the number of due cards at every
    instant is what it was, and so is the delay to the next check,
    whatever the clock reads: a card that timed out stays due and is not
    put on a cooldown. *)
Theorem non_answer_keeps_schedule (clk : clock) (db : store) (i : Z)
  (result : string) :
  check_ok db ->
  result <> "True" -> result <> "False" ->
  exists db',
    update_flashcard_after_review clk db i result = Returned db' /\
    (forall t, count_due t db' = count_due t db) /\
    (forall clk', calculate_next_test_interval clk' db'
                  = calculate_next_test_interval clk' db).
Proof.
  intros Hok HT HF.
  destruct (review_returns clk db i result Hok) as [f [Hret [_ [_ Hnext]]]].
  specialize (Hnext HT HF).
  exists (update_where i f db). split; [exact Hret|]. split.
  - intros t. apply update_where_count_due. exact Hnext.
  - intros clk'. unfold calculate_next_test_interval.
    rewrite update_where_count_due by exact Hnext.
    rewrite update_where_earliest_upcoming by exact Hnext.
    reflexivity.
Qed.

Lemma non_answer_keeps_schedule_witness :
  exists db',
    update_flashcard_after_review (frozen 7200000000)
      [early_card; late_wrong_card] 1 "TIMEOUT" = Returned db' /\
    count_due 7200000000 db' = 2 /\
    calculate_next_test_interval (frozen 7200000000) db' = 5.
Proof.
  destruct (non_answer_keeps_schedule (frozen 7200000000)
              [early_card; late_wrong_card] 1 "TIMEOUT" check_ok_pair)
    as [db' [H1 [H2 H3]]]; [discriminate | discriminate |].
  exists db'. split; [exact H1|]. split.
  - rewrite H2. reflexivity.
  - rewrite H3. reflexivity.
Defined.

(** ** Filling up from the defaults *)

Lemma default_words_nodup : NoDup default_words.
Proof.
  pose proof (NoDup_nodup string_dec default_words) as H.
  vm_compute in H. exact H.
Qed.

Lemma default_meanings_nodup : NoDup default_meanings.
Proof.
  pose proof (NoDup_nodup string_dec default_meanings) as H.
  vm_compute in H. exact H.
Qed.

Lemma firstn_nodup {A : Type} (n : nat) (l : list A) :
  NoDup l -> NoDup (firstn n l).
Proof.
  intros H. rewrite <- (firstn_skipn n l) in H.
  exact (NoDup_app_remove_r _ _ H).
Qed.

(** The loop keeps what is there and stops short of [count] entries only
    when every default is in the list. *)
Lemma top_up_reaches (count : Z) (defaults : list string) :
  forall ws : list string,
    incl ws (top_up count defaults ws) /\
    (count <= Z.of_nat (List.length (top_up count defaults ws)) \/
     incl defaults (top_up count defaults ws)).
Proof.
  induction defaults as [|d rest IH]; intros ws; simpl.
  - split; [apply incl_refl | right; intros x []].
  - destruct (count <=? Z.of_nat (List.length ws)) eqn:E.
    + apply Z.leb_le in E. split; [apply incl_refl | left; exact E].
    + destruct (mem_string d ws) eqn:Em.
      * destruct (IH ws) as [Hin Hor]. split; [exact Hin|].
        destruct Hor as [H | H]; [left; exact H | right].
        intros x [<- | Hx]; [|auto].
        apply Hin. apply mem_string_in. exact Em.
      * destruct (IH (ws ++ [d])) as [Hin Hor]. split.
        -- intros x Hx. apply Hin. apply in_or_app. auto.
        -- destruct Hor as [H | H]; [left; exact H | right].
           intros x [<- | Hx]; [|auto].
           apply Hin. apply in_or_app. right. left. reflexivity.
Qed.

Lemma top_up_length (count : Z) (defaults ws : list string) :
  NoDup defaults ->
  count <= Z.of_nat (List.length defaults) ->
  count <= Z.of_nat (List.length (top_up count defaults ws)).
Proof.
  intros Hnd Hc. destruct (top_up_reaches count defaults ws) as [_ [H | H]].
  - exact H.
  - pose proof (NoDup_incl_length Hnd H). lia.
Qed.

Lemma slice_to_length {A : Type} (count : Z) (l : list A) :
  0 <= count <= Z.of_nat (List.length l) ->
  Z.of_nat (List.length (slice_to count l)) = count.
Proof.
  intros H. unfold slice_to.
  destruct (count <? 0) eqn:E; [apply Z.ltb_lt in E; lia|].
  rewrite length_firstn. lia.
Qed.

Lemma slice_to_short {A : Type} (count : Z) (l : list A) :
  0 <= count -> Z.of_nat (List.length (slice_to count l)) <= count.
Proof.
  intros H. unfold slice_to.
  destruct (count <? 0) eqn:E; [apply Z.ltb_lt in E; lia|].
  rewrite length_firstn. lia.
Qed.

(** X12. The samplers deliver the requested number.  For a count from 0
    to 20 (the size of the built-in default lists) each contextual sampler
    returns exactly [count] strings, however small the store and whatever
    the random choices; for any non-negative count it returns at most
    [count]. *)
Theorem samplers_return_count
  (sql_random : list FlashCard -> list FlashCard)
  (shuffle : list string -> list string)
  (db : store) (exclude_id count : Z) :
  (forall l, Permutation (shuffle l) l) ->
  0 <= count ->
  (Z.of_nat (List.length
     (get_contextual_words_for_stage3 sql_random shuffle db exclude_id count))
   <= count) /\
  (Z.of_nat (List.length
     (get_contextual_meanings_for_stage2 sql_random shuffle db exclude_id count))
   <= count) /\
  (count <= 20 ->
   Z.of_nat (List.length
     (get_contextual_words_for_stage3 sql_random shuffle db exclude_id count))
   = count /\
   Z.of_nat (List.length
     (get_contextual_meanings_for_stage2 sql_random shuffle db exclude_id count))
   = count).
Proof.
  intros Hs Hc.
  unfold get_contextual_words_for_stage3, get_contextual_meanings_for_stage2,
    contextual_sample.
  split; [apply slice_to_short; exact Hc|].
  split; [apply slice_to_short; exact Hc|].
  intros H20. split; apply slice_to_length;
    (split; [exact Hc|]);
    rewrite (Permutation_length (Hs _)); apply top_up_length;
    solve [ apply default_words_nodup | apply default_meanings_nodup
          | simpl; lia ].
Qed.

Lemma samplers_return_count_witness :
  List.length
    (get_contextual_words_for_stage3 keep_order keep_order [apple_card] 1 5)
  = 5%nat /\
  List.length
    (get_contextual_meanings_for_stage2 keep_order keep_order [] 7 20)
  = 20%nat.
Proof.
  destruct (samplers_return_count keep_order keep_order [apple_card] 1 5
              (@keep_order_perm string)) as [_ [_ H]]; [lia|].
  destruct (samplers_return_count keep_order keep_order [] 7 20
              (@keep_order_perm string)) as [_ [_ H']]; [lia|].
  destruct H as [H _]; [lia|]. destruct H' as [_ H']; [lia|].
  split; apply Nat2Z.inj; assumption.
Defined.

Lemma fill_defaults_reaches (count : Z) (defaults : list string) :
  forall ws : list string,
    incl ws (fill_defaults count defaults ws) /\
    (List.length ws <= List.length (fill_defaults count defaults ws))%nat /\
    (count <= Z.of_nat (List.length (fill_defaults count defaults ws)) \/
     incl defaults (fill_defaults count defaults ws)).
Proof.
  induction defaults as [|d rest IH]; intros ws; simpl.
  - split; [apply incl_refl|]. split; [lia | right; intros x []].
  - destruct (mem_string d ws) eqn:Em; simpl.
    + destruct (IH ws) as [Hin [Hlen Hor]].
      split; [exact Hin|]. split; [exact Hlen|].
      destruct Hor as [H | H]; [left; exact H | right].
      intros x [<- | Hx]; [|auto].
      apply Hin. apply mem_string_in. exact Em.
    + destruct (Z.of_nat (List.length ws) <? count) eqn:E.
      * destruct (IH (ws ++ [d])) as [Hin [Hlen Hor]].
        rewrite length_app in Hlen. simpl in Hlen.
        split; [intros x Hx; apply Hin; apply in_or_app; auto|].
        split; [lia|].
        destruct Hor as [H | H]; [left; exact H | right].
        intros x [<- | Hx]; [|auto].
        apply Hin. apply in_or_app. right. left. reflexivity.
      * apply Z.ltb_ge in E.
        destruct (IH ws) as [Hin [Hlen Hor]].
        split; [exact Hin|]. split; [exact Hlen|]. left. lia.
Qed.

Lemma fill_defaults_in (count : Z) (defaults : list string) :
  forall (ws : list string) (w : string),
    In w (fill_defaults count defaults ws) -> In w ws \/ In w defaults.
Proof.
  induction defaults as [|d rest IH]; simpl; intros ws w H; [auto|].
  destruct (negb (mem_string d ws) && (Z.of_nat (List.length ws) <? count)).
  - destruct (IH _ _ H) as [Hin | Hin]; [|auto].
    apply in_app_or in Hin. destruct Hin as [Hin | [-> | []]]; auto.
  - destruct (IH _ _ H); auto.
Qed.

Lemma fill_defaults_nodup (count : Z) (defaults : list string) :
  forall ws : list string,
    NoDup ws -> NoDup (fill_defaults count defaults ws).
Proof.
  induction defaults as [|d rest IH]; simpl; intros ws Hnd; [exact Hnd|].
  destruct (mem_string d ws) eqn:Em; simpl; [apply IH; exact Hnd|].
  destruct (Z.of_nat (List.length ws) <? count); [|apply IH; exact Hnd].
  apply IH. apply NoDup_app; [exact Hnd | repeat constructor; simpl; tauto|].
  intros x Hx [<- | []].
  apply mem_string_in in Hx. congruence.
Qed.

(** The loop of the option builders is the loop above with the bound 4. *)
Lemma add_default_options_fill (defaults : list string) :
  forall options : list string,
    add_default_options defaults options = fill_defaults 4 defaults options.
Proof.
  induction defaults as [|d rest IH]; simpl; intros options; [reflexivity|].
  rewrite andb_comm.
  destruct (negb (mem_string d options) &&
            (Z.of_nat (List.length options) <? 4)); apply IH.
Qed.

(** X13. The deprecated random sampler.  For a count from 0 to 8 (the
    size of its default list) [get_random_words_for_options] returns
    exactly [count] words, for any non-negative count at most [count];
    and every word it returns is the word of a row other than the
    excluded one or one of its eight defaults. *)
Theorem random_words_for_options
  (sql_random : list FlashCard -> list FlashCard)
  (db : store) (exclude_id count : Z) :
  (forall l, Permutation (sql_random l) l) ->
  0 <= count ->
  Z.of_nat (List.length
     (get_random_words_for_options sql_random db exclude_id count)) <= count /\
  (count <= 8 ->
   Z.of_nat (List.length
     (get_random_words_for_options sql_random db exclude_id count)) = count) /\
  (forall w,
     In w (get_random_words_for_options sql_random db exclude_id count) ->
     (exists r, In r db /\ id r <> exclude_id /\ word r = w) \/
     In w ["apple"; "book"; "cat"; "dog"; "elephant"; "flower"; "guitar";
           "house"]).
Proof.
  intros Hr Hc. unfold get_random_words_for_options.
  set (words := map word _).
  split; [apply slice_to_short; exact Hc|]. split.
  - intros H8. apply slice_to_length. split; [exact Hc|].
    destruct (Z.of_nat (List.length words) <? count) eqn:E.
    + match goal with
      | |- context [fill_defaults count ?ds words] =>
          destruct (fill_defaults_reaches count ds words) as [_ [_ [H | H]]];
            [exact H|];
          assert (Hnd : NoDup ds)
            by (pose proof (NoDup_nodup string_dec ds) as Hn;
                vm_compute in Hn; exact Hn);
          pose proof (NoDup_incl_length Hnd H) as Hl;
          change (List.length ds) with 8%nat in Hl; lia
      end.
    + apply Z.ltb_ge in E. exact E.
  - intros w Hw. apply slice_to_in in Hw.
    assert (Hrow : In w words ->
                   exists r, In r db /\ id r <> exclude_id /\ word r = w).
    { unfold words. intros H. apply in_map_iff in H. destruct H as [r [Hc' H]].
      apply sql_limit_in in H. apply (Permutation_in _ (Hr _)) in H.
      apply filter_In in H. destruct H as [H Hf].
      apply negb_true_iff, Z.eqb_neq in Hf. eauto. }
    destruct (Z.of_nat (List.length words) <? count); [|auto].
    apply fill_defaults_in in Hw. destruct Hw; auto.
Qed.

Lemma random_words_for_options_witness :
  List.length (get_random_words_for_options keep_order [apple_card] 1 8)
  = 8%nat.
Proof.
  destruct (random_words_for_options keep_order [apple_card] 1 8
              (@keep_order_perm FlashCard)) as [_ [H _]]; [lia|].
  apply Nat2Z.inj. apply H. lia.
Defined.

(** X14. The option builders show four distinct options.  Whatever the
    pool and the card, [get_multiple_choice_options] and
    [get_multiple_choice_meanings_for_stage2] return exactly four
    options; and when the pool has no duplicates (it is built by
    [list(set(...))]) the four options are pairwise distinct. *)
Theorem options_are_four
  (shuffle_pool shuffle_options : list string -> list string)
  (pool : list string) (fc : FlashCard) :
  (forall l, Permutation (shuffle_pool l) l) ->
  (forall l, Permutation (shuffle_options l) l) ->
  List.length (get_multiple_choice_options shuffle_pool shuffle_options pool fc)
  = 4%nat /\
  List.length
    (get_multiple_choice_meanings_for_stage2 shuffle_pool shuffle_options pool fc)
  = 4%nat /\
  (NoDup pool ->
   NoDup (get_multiple_choice_options shuffle_pool shuffle_options pool fc) /\
   NoDup (get_multiple_choice_meanings_for_stage2 shuffle_pool shuffle_options
            pool fc)).
Proof.
  intros Hp Ho.
  assert (Hgen : forall answer defaults,
             NoDup defaults -> (4 <= List.length defaults)%nat ->
             List.length
               (build_options answer defaults shuffle_pool shuffle_options pool)
             = 4%nat /\
             (NoDup pool ->
              NoDup (build_options answer defaults shuffle_pool
                       shuffle_options pool))).
  { intros answer defaults Hnd Hlen. unfold build_options.
    set (avail := shuffle_pool _).
    set (options := [answer] ++ firstn 3 avail).
    assert (Hstart : (List.length options <= 4)%nat).
    { unfold options. cbn [app List.length].
      pose proof (firstn_le_length 3 avail). lia. }
    pose proof (add_default_options_length defaults options Hstart) as Hmax.
    assert (Hmin : (4 <= List.length (add_default_options defaults options))%nat).
    { rewrite add_default_options_fill.
      destruct (fill_defaults_reaches 4 defaults options) as [_ [_ [H | H]]].
      - lia.
      - pose proof (NoDup_incl_length Hnd H). lia. }
    assert (Hall : slice_to 4 (shuffle_options (add_default_options defaults options))
                   = shuffle_options (add_default_options defaults options)).
    { unfold slice_to. change (4 <? 0) with false. cbv iota.
      change (Z.to_nat 4) with 4%nat. apply firstn_all2.
      rewrite (Permutation_length (Ho _)). exact Hmax. }
    rewrite Hall. split.
    - rewrite (Permutation_length (Ho _)). lia.
    - intros Hpool.
      apply (Permutation_NoDup (Permutation_sym (Ho _))).
      rewrite add_default_options_fill. apply fill_defaults_nodup.
      unfold options. cbn [app]. constructor.
      + intros Hin. apply firstn_in in Hin. unfold avail in Hin.
        apply (Permutation_in _ (Hp _)) in Hin.
        apply filter_In in Hin. destruct Hin as [_ Hf].
        rewrite String.eqb_refl in Hf. discriminate.
      + apply firstn_nodup. unfold avail.
        apply (Permutation_NoDup (Permutation_sym (Hp _))).
        apply NoDup_filter. exact Hpool. }
  unfold get_multiple_choice_options, get_multiple_choice_meanings_for_stage2.
  match goal with
  | |- context [build_options (word fc) ?ds _ _ _] =>
      destruct (Hgen (word fc) ds) as [Hw1 Hw2];
        [ pose proof (NoDup_nodup string_dec ds) as Hn; vm_compute in Hn; exact Hn
        | simpl; lia | ]
  end.
  match goal with
  | |- context [build_options (meaning fc) ?ds _ _ _] =>
      destruct (Hgen (meaning fc) ds) as [Hm1 Hm2];
        [ pose proof (NoDup_nodup string_dec ds) as Hn; vm_compute in Hn; exact Hn
        | simpl; lia | ]
  end.
  split; [exact Hw1|]. split; [exact Hm1|]. auto.
Qed.

Lemma options_are_four_witness :
  List.length
    (get_multiple_choice_options keep_order keep_order ["ebb"; "flow"] early_card)
  = 4%nat /\
  NoDup (get_multiple_choice_options keep_order keep_order ["ebb"; "flow"]
           early_card).
Proof.
  destruct (options_are_four keep_order keep_order ["ebb"; "flow"] early_card
              (@keep_order_perm string) (@keep_order_perm string))
    as [H1 [_ H2]].
  split; [exact H1|]. apply H2.
  repeat constructor; simpl; intuition discriminate.
Defined.

(** ** The session pools *)

Lemma collect_contextual_in (sample : nat -> Z -> list string) (stage : Z)
  (flashcards : list FlashCard) :
  forall (k : nat) (w : string),
    In w (collect_contextual sample stage k flashcards) ->
    exists j fc,
      In fc flashcards /\ stage_id fc = stage /\ In w (sample j (id fc)).
Proof.
  induction flashcards as [|fc rest IH]; simpl; intros k w H; [contradiction|].
  destruct (stage_id fc =? stage) eqn:E.
  - apply in_app_or in H. destruct H as [H | H].
    + apply Z.eqb_eq in E. exists k, fc. auto.
    + destruct (IH _ _ H) as [j [fc' [Hin Hrest]]]. exists j, fc'. auto.
  - destruct (IH _ _ H) as [j [fc' [Hin Hrest]]]. exists j, fc'. auto.
Qed.

Lemma collect_contextual_length (sample : nat -> Z -> list string) (stage : Z)
  (n : nat) (flashcards : list FlashCard) :
  (forall j ex, (List.length (sample j ex) <= n)%nat) ->
  forall k : nat,
    (List.length (collect_contextual sample stage k flashcards)
     <= n * List.length (filter (fun fc => (stage_id fc =? stage)%Z) flashcards))%nat.
Proof.
  intros Hn. induction flashcards as [|fc rest IH]; simpl; intros k; [lia|].
  destruct (stage_id fc =? stage); simpl.
  - rewrite length_app. specialize (IH (S k)). specialize (Hn k (id fc)). lia.
  - apply IH.
Qed.

Lemma nodup_length_le (l : list string) :
  (List.length (nodup string_dec l) <= List.length l)%nat.
Proof.
  apply NoDup_incl_length; [apply NoDup_nodup|].
  intros x Hx. apply nodup_In in Hx. exact Hx.
Qed.

Lemma contextual_sample_short (col : FlashCard -> string)
  (defaults : list string)
  (sql_random : list FlashCard -> list FlashCard)
  (shuffle : list string -> list string)
  (db : store) (exclude_id count : Z) :
  0 <= count ->
  Z.of_nat (List.length
     (contextual_sample col defaults sql_random shuffle db exclude_id count))
  <= count.
Proof. intros H. unfold contextual_sample. apply slice_to_short. exact H. Qed.

(** X15. The pools handed to the reviewer.  The pool of words has no
    duplicates; each of its entries was sampled for a stage-3 card of the
    batch, so it is the word of a row of the store other than that card's
    row or a built-in default word; the pool holds at most five entries
    per stage-3 card, and none when the batch has no stage-3 card.  The
    pool of meanings is built likewise from the stage-2 cards. *)
Theorem contextual_pools
  (sql_random : nat -> list FlashCard -> list FlashCard)
  (shuffle : nat -> list string -> list string)
  (set_order : list string -> list string)
  (db : store) (flashcards : list FlashCard) :
  (forall k l, Permutation (sql_random k l) l) ->
  (forall k l, Permutation (shuffle k l) l) ->
  (forall l, Permutation (set_order l) l) ->
  (NoDup (prepare_contextual_words sql_random shuffle set_order db flashcards) /\
   (forall w,
      In w (prepare_contextual_words sql_random shuffle set_order db flashcards) ->
      exists fc,
        In fc flashcards /\ stage_id fc = 3 /\
        ((exists r, In r db /\ id r <> id fc /\ word r = w) \/
         In w default_words)) /\
   (List.length
      (prepare_contextual_words sql_random shuffle set_order db flashcards)
    <= 5 * List.length (filter (fun fc => (stage_id fc =? 3)%Z) flashcards))%nat) /\
  (NoDup (prepare_contextual_meanings sql_random shuffle set_order db flashcards) /\
   (forall m,
      In m (prepare_contextual_meanings sql_random shuffle set_order db flashcards) ->
      exists fc,
        In fc flashcards /\ stage_id fc = 2 /\
        ((exists r, In r db /\ id r <> id fc /\ meaning r = m) \/
         In m default_meanings)) /\
   (List.length
      (prepare_contextual_meanings sql_random shuffle set_order db flashcards)
    <= 5 * List.length (filter (fun fc => (stage_id fc =? 2)%Z) flashcards))%nat).
Proof.
  intros Hr Hs Ho.
  assert (Hgen : forall col defaults stage,
             let sample := fun k exclude_id =>
               contextual_sample col defaults (sql_random k) (shuffle k)
                 db exclude_id 5 in
             let pool :=
               set_order (nodup string_dec
                            (collect_contextual sample stage 0%nat flashcards)) in
             NoDup pool /\
             (forall w, In w pool ->
                exists fc, In fc flashcards /\ stage_id fc = stage /\
                  ((exists r, In r db /\ id r <> id fc /\ col r = w) \/
                   In w defaults)) /\
             (List.length pool
              <= 5 * List.length
                     (filter (fun fc => (stage_id fc =? stage)%Z) flashcards))%nat).
  { intros col defaults stage sample pool. unfold pool. split; [|split].
    - apply (Permutation_NoDup (Permutation_sym (Ho _))). apply NoDup_nodup.
    - intros w Hw. apply (Permutation_in _ (Ho _)) in Hw.
      apply nodup_In in Hw.
      apply collect_contextual_in in Hw.
      destruct Hw as [j [fc [Hin [Hst Hw]]]].
      exists fc. split; [exact Hin|]. split; [exact Hst|].
      unfold sample in Hw.
      exact (contextual_sample_in (sql_random j) (shuffle j) (Hr j) (Hs j)
               col defaults db (id fc) 5 w Hw).
    - rewrite (Permutation_length (Ho _)).
      eapply Nat.le_trans; [apply nodup_length_le|].
      apply collect_contextual_length.
      intros j ex. unfold sample.
      assert (H5 : 0 <= 5) by lia.
      pose proof (contextual_sample_short col defaults (sql_random j)
                    (shuffle j) db ex 5 H5) as Hlen.
      lia. }
  split.
  - exact (Hgen word default_words 3).
  - exact (Hgen meaning default_meanings 2).
Qed.

Lemma contextual_pools_witness :
  NoDup (prepare_contextual_words (fun _ => keep_order) (fun _ => keep_order)
           keep_order [apple_card; apple_twin] [apple_card; apple_twin]) /\
  (List.length
     (prepare_contextual_words (fun _ => keep_order) (fun _ => keep_order)
        keep_order [apple_card; apple_twin] [apple_card; apple_twin])
   <= 5)%nat.
Proof.
  destruct (contextual_pools (fun _ => keep_order) (fun _ => keep_order)
              keep_order [apple_card; apple_twin] [apple_card; apple_twin])
    as [[H1 [_ H2]] _].
  - intros k l. apply keep_order_perm.
  - intros k l. apply keep_order_perm.
  - intros l. apply keep_order_perm.
  - split; [exact H1 | exact H2].
Defined.

(** ** The reviewer's session record *)

Lemma mark_notin (l : list FlashCard) :
  forall (d : list (Z * string)) (k : Z),
    ~ In k (map id l) ->
    dict_get Z.eqb k
      (fold_left (fun d fc => dict_set Z.eqb (id fc) "TIMEOUT" d) l d)
    = dict_get Z.eqb k d.
Proof.
  induction l as [|a rest IH]; simpl; intros d k H; [reflexivity|].
  rewrite IH by tauto.
  apply (dict_get_set_other Z.eqb Z.eqb_eq). intros E. apply H. auto.
Qed.

Lemma mark_in (l : list FlashCard) :
  forall (d : list (Z * string)) (k : Z),
    In k (map id l) ->
    dict_get Z.eqb k
      (fold_left (fun d fc => dict_set Z.eqb (id fc) "TIMEOUT" d) l d)
    = Some "TIMEOUT".
Proof.
  induction l as [|a rest IH]; simpl; intros d k H; [contradiction|].
  destruct (in_dec Z.eq_dec k (map id rest)) as [Hin | Hout].
  - apply IH. exact Hin.
  - rewrite mark_notin by exact Hout.
    destruct H as [<- | H]; [|contradiction].
    apply (dict_get_set_same Z.eqb Z.eqb_eq).
Qed.

Lemma mark_keeps (l : list FlashCard) (d : list (Z * string)) (k : Z) :
  dict_get Z.eqb k d <> None ->
  dict_get Z.eqb k
    (fold_left (fun d fc => dict_set Z.eqb (id fc) "TIMEOUT" d) l d) <> None.
Proof.
  intros H. destruct (in_dec Z.eq_dec k (map id l)) as [Hin | Hout].
  - rewrite mark_in by exact Hin. discriminate.
  - rewrite mark_notin by exact Hout. exact H.
Qed.

Lemma dict_set_keeps (k k' : Z) (v : string) (d : list (Z * string)) :
  dict_get Z.eqb k' d <> None ->
  dict_get Z.eqb k' (dict_set Z.eqb k v d) <> None.
Proof.
  intros H. destruct (Z.eq_dec k k') as [-> | Hne].
  - rewrite (dict_get_set_same Z.eqb Z.eqb_eq). discriminate.
  - rewrite (dict_get_set_other Z.eqb Z.eqb_eq) by exact Hne. exact H.
Qed.

Lemma later_card_in_rest (l : list FlashCard) (n j : nat) (fc : FlashCard) :
  (n < j)%nat -> nth_error l j = Some fc -> In (id fc) (map id (skipn (S n) l)).
Proof.
  intros Hj H. apply in_map. apply (nth_error_In _ (j - S n)).
  rewrite nth_error_skipn. replace (S n + (j - S n))%nat with j by lia. exact H.
Qed.

Lemma earlier_card_not_in_rest (l : list FlashCard) (n j : nat) (fc : FlashCard) :
  NoDup (map id l) -> (j <= n)%nat -> nth_error l j = Some fc ->
  ~ In (id fc) (map id (skipn (S n) l)).
Proof.
  intros Hnd Hj H Hin.
  apply In_nth_error in Hin. destruct Hin as [m Hm].
  rewrite <- skipn_map, nth_error_skipn in Hm.
  pose proof (map_nth_error id j l H) as Hj'.
  rewrite NoDup_nth_error in Hnd.
  assert (Hlt : (j < List.length (map id l))%nat).
  { apply nth_error_Some. rewrite Hj'. discriminate. }
  specialize (Hnd j (S n + m)%nat Hlt). rewrite Hj', Hm in Hnd.
  specialize (Hnd eq_refl). lia.
Qed.

(** X16. Early exit files the rest of the batch.  When the timer runs
    out, or Escape is pressed, on the card at the current index of a batch
    with distinct ids, that card is filed as "TIMEOUT", respectively
    "ESCAPE", every card after it as "TIMEOUT", and the results of the
    cards before it stay as they were; the index does not move. *)
Theorem early_exit_files_the_rest (st : ReviewerState) (cur : FlashCard) :
  NoDup (map id (current_flashcards st)) ->
  nth_error (current_flashcards st) (current_index st) = Some cur ->
  dict_get Z.eqb (id cur) (results (handle_timeout st)) = Some "TIMEOUT" /\
  dict_get Z.eqb (id cur) (results (handle_escape_key st)) = Some "ESCAPE" /\
  (forall j fc,
     (current_index st < j)%nat ->
     nth_error (current_flashcards st) j = Some fc ->
     dict_get Z.eqb (id fc) (results (handle_timeout st)) = Some "TIMEOUT" /\
     dict_get Z.eqb (id fc) (results (handle_escape_key st)) = Some "TIMEOUT") /\
  (forall j fc,
     (j < current_index st)%nat ->
     nth_error (current_flashcards st) j = Some fc ->
     dict_get Z.eqb (id fc) (results (handle_timeout st))
     = dict_get Z.eqb (id fc) (results st) /\
     dict_get Z.eqb (id fc) (results (handle_escape_key st))
     = dict_get Z.eqb (id fc) (results st)) /\
  current_index (handle_timeout st) = current_index st /\
  current_index (handle_escape_key st) = current_index st.
Proof.
  intros Hnd Hcur.
  unfold handle_timeout, handle_escape_key, mark_remaining_as_timeout.
  rewrite Hcur. cbn [results current_flashcards current_index].
  pose proof (earlier_card_not_in_rest _ (current_index st) _ cur Hnd
                (Nat.le_refl _) Hcur) as Hcur_out.
  split; [|split; [|split; [|split; [|split]]]]; try reflexivity.
  - rewrite mark_notin by exact Hcur_out.
    apply (dict_get_set_same Z.eqb Z.eqb_eq).
  - rewrite mark_notin by exact Hcur_out.
    apply (dict_get_set_same Z.eqb Z.eqb_eq).
  - intros j fc Hj Hfc.
    pose proof (later_card_in_rest _ _ _ _ Hj Hfc) as Hin.
    split; apply mark_in; exact Hin.
  - intros j fc Hj Hfc.
    assert (Hout : ~ In (id fc) (map id (skipn (S (current_index st))
                                           (current_flashcards st)))).
    { apply (earlier_card_not_in_rest _ _ j); auto. lia. }
    assert (Hne : id cur <> id fc).
    { intros E. rewrite NoDup_nth_error in Hnd.
      pose proof (map_nth_error id _ _ Hfc) as H1.
      pose proof (map_nth_error id _ _ Hcur) as H2.
      assert (Hlt : (j < List.length (map id (current_flashcards st)))%nat).
      { apply nth_error_Some. rewrite H1. discriminate. }
      specialize (Hnd j (current_index st) Hlt). rewrite H1, H2, E in Hnd.
      specialize (Hnd eq_refl). lia. }
    split; rewrite mark_notin by exact Hout;
      apply (dict_get_set_other Z.eqb Z.eqb_eq); exact Hne.
Qed.

Lemma early_exit_files_the_rest_witness :
  dict_get Z.eqb 1
    (results (handle_timeout
                (start_review [early_card; late_wrong_card] idle_reviewer)))
  = Some "TIMEOUT" /\
  dict_get Z.eqb 1
    (results (handle_escape_key
                (start_review [early_card; late_wrong_card] idle_reviewer)))
  = Some "ESCAPE" /\
  dict_get Z.eqb 2
    (results (handle_escape_key
                (start_review [early_card; late_wrong_card] idle_reviewer)))
  = Some "TIMEOUT".
Proof.
  destruct (early_exit_files_the_rest
              (start_review [early_card; late_wrong_card] idle_reviewer)
              early_card
              unique_ids_pair eq_refl)
    as [H1 [H2 [H3 _]]].
  split; [exact H1|]. split; [exact H2|].
  exact (proj2 (H3 1%nat late_wrong_card (Nat.lt_0_succ 0) eq_refl)).
Defined.

(** After an early exit every card from the current one on is on file. *)
Lemma marked_from_current (st : ReviewerState) (cur : FlashCard) (v : string) :
  nth_error (current_flashcards st) (current_index st) = Some cur ->
  answered_before st ->
  all_answered
    (mark_remaining_as_timeout
       (mkReviewer (current_flashcards st) (current_index st)
          (dict_set Z.eqb (id cur) v (results st)))).
Proof.
  intros Hcur Hbefore fc Hin.
  unfold mark_remaining_as_timeout in *.
  cbn [results current_flashcards current_index] in *.
  apply In_nth_error in Hin. destruct Hin as [j Hj].
  destruct (Nat.lt_trichotomy j (current_index st)) as [Hlt | [-> | Hgt]].
  - apply mark_keeps. apply dict_set_keeps. exact (Hbefore j fc Hlt Hj).
  - rewrite Hcur in Hj. inversion Hj; subst fc.
    apply mark_keeps. rewrite (dict_get_set_same Z.eqb Z.eqb_eq). discriminate.
  - rewrite mark_in; [discriminate|].
    exact (later_card_in_rest _ _ _ _ Hgt Hj).
Qed.

Lemma answered_when_past_end (st : ReviewerState) :
  nth_error (current_flashcards st) (current_index st) = None ->
  answered_before st -> all_answered st.
Proof.
  intros Hend Hbefore fc Hin.
  apply In_nth_error in Hin. destruct Hin as [j Hj].
  apply (Hbefore j fc); [|exact Hj].
  apply nth_error_None in Hend.
  assert (j < List.length (current_flashcards st))%nat; [|lia].
  apply nth_error_Some. rewrite Hj. discriminate.
Qed.

(** X17. No card of a session is left without a result.  A session
    on a non-empty batch starts with nothing owed; filing an answer, and moving on after the
    feedback of that answer, keep every card before the current index on
    file; and however the session then ends (timer, Escape, closing the
    window, or the index running past the last card) every card of the
    batch has a result on file.  Closing the window emits exactly the
    results on file, unless there are none, and resets the index. *)
Theorem session_leaves_no_card_out :
  (forall l st, l <> [] -> answered_before (start_review l st)) /\
  (forall r st, answered_before st -> answered_before (record_result r st)) /\
  (forall r st,
     answered_before st ->
     current_index (record_result r st) = current_index st ->
     answered_before (hide_feedback (record_result r st))) /\
  (forall st,
     answered_before st ->
     all_answered (handle_timeout st) /\
     all_answered (handle_escape_key st) /\
     all_answered (fst (closeEvent st)) /\
     (nth_error (current_flashcards st) (current_index st) = None ->
      all_answered st)) /\
  (forall st,
     current_index (fst (closeEvent st)) = 0%nat /\
     snd (closeEvent st)
     = match results (fst (closeEvent st)) with
       | [] => None
       | _ => Some (results (fst (closeEvent st)))
       end).
Proof.
  split; [|split; [|split; [|split]]].
  - intros l st Hl j fc Hj. destruct l; [congruence|]. simpl in Hj. lia.
  - intros r st Hbefore. unfold record_result.
    destruct (nth_error (current_flashcards st) (current_index st))
      as [cur|] eqn:Hcur; [|exact Hbefore].
    destruct ((1 <? stage_id cur) && ((r =? "True") || (r =? "False"))%string);
      intros j fc Hj Hfc; cbn [results current_flashcards current_index] in *.
    + apply dict_set_keeps. exact (Hbefore j fc Hj Hfc).
    + destruct (Nat.eq_dec j (current_index st)) as [-> | Hne].
      * rewrite Hcur in Hfc. inversion Hfc; subst fc.
        rewrite (dict_get_set_same Z.eqb Z.eqb_eq). discriminate.
      * apply dict_set_keeps. apply (Hbefore j fc); [lia | exact Hfc].
  - intros r st Hbefore Hsame. unfold record_result in *.
    destruct (nth_error (current_flashcards st) (current_index st))
      as [cur|] eqn:Hcur.
    + destruct ((1 <? stage_id cur) && ((r =? "True") || (r =? "False"))%string);
        cbn [current_index] in Hsame; [|lia].
      intros j fc Hj Hfc.
      cbn [hide_feedback results current_flashcards current_index] in *.
      destruct (Nat.eq_dec j (current_index st)) as [-> | Hne].
      * rewrite Hcur in Hfc. inversion Hfc; subst fc.
        rewrite (dict_get_set_same Z.eqb Z.eqb_eq). discriminate.
      * apply dict_set_keeps. apply (Hbefore j fc); [lia | exact Hfc].
    + intros j fc Hj Hfc.
      cbn [hide_feedback results current_flashcards current_index] in *.
      destruct (Nat.eq_dec j (current_index st)) as [-> | Hne].
      * rewrite Hcur in Hfc. discriminate.
      * apply (Hbefore j fc); [lia | exact Hfc].
  - intros st Hbefore.
    unfold handle_timeout, handle_escape_key, closeEvent.
    destruct (nth_error (current_flashcards st) (current_index st))
      as [cur|] eqn:Hcur.
    + split; [apply marked_from_current; assumption|].
      split; [apply marked_from_current; assumption|].
      split; [|discriminate].
      destruct (dict_get Z.eqb (id cur) (results st)) as [v|] eqn:Hv.
      * intros fc Hin.
        cbn [fst results current_flashcards current_index
             mark_remaining_as_timeout] in *.
        apply In_nth_error in Hin. destruct Hin as [j Hj].
        destruct (Nat.lt_trichotomy j (current_index st)) as [Hlt | [-> | Hgt]].
        -- apply mark_keeps. exact (Hbefore j fc Hlt Hj).
        -- rewrite Hcur in Hj. inversion Hj; subst fc.
           apply mark_keeps. rewrite Hv. discriminate.
        -- rewrite mark_in; [discriminate|].
           exact (later_card_in_rest _ _ _ _ Hgt Hj).
      * exact (marked_from_current st cur "TIMEOUT" Hcur Hbefore).
    + pose proof (answered_when_past_end st Hcur Hbefore) as Hall.
      repeat split; auto.
  - intros st. unfold closeEvent. cbn [fst snd current_index results].
    split; reflexivity.
Qed.

(** ** Applying the results of a session *)

Lemma content_kept_id (f : FlashCard -> FlashCard) :
  (forall r, content_kept r (f r)) -> forall r, id (f r) = id r.
Proof.
  intros H r. specialize (H r). unfold content_kept in H.
  inversion H. reflexivity.
Qed.

(** X18. The results of a session are applied one by one, each to its
    own card.  On a table that passes its [CHECK], for a results dict
    (distinct keys), [update_flashcard_results] leaves the table passing
    its [CHECK]; a card whose id is not a key keeps its row; the card of
    the k-th entry ends up as the row it had before the batch, reviewed
    with that entry's result at the clock of the k-th call, and carrying
    the score the scorer gives for that reviewed row at the last reading
    of that call (the second reading for "TIMEOUT" and "ESCAPE", the
    third otherwise); and an entry whose id is not in the table changes
    nothing and does not stop the batch. *)
Theorem batch_applies_each_result (results : list (Z * string)) :
  forall (clks : nat -> clock) (db : store),
    check_ok db ->
    NoDup (map fst results) ->
    check_ok (update_flashcard_results clks db results) /\
    (forall i, ~ In i (map fst results) ->
       get_flashcard_by_id (update_flashcard_results clks db results) i
       = get_flashcard_by_id db i) /\
    (forall k i r,
       nth_error results k = Some (i, r) ->
       (get_flashcard_by_id db i = None ->
        get_flashcard_by_id (update_flashcard_results clks db results) i = None) /\
       (forall fc,
          get_flashcard_by_id db i = Some fc ->
          exists s,
            _calculate_priority_score
              (clks k (if is_non_answer r then 1%nat else 2%nat))
              (reviewed (clks k) r fc) = Some s /\
            get_flashcard_by_id (update_flashcard_results clks db results) i
            = Some (set_priority_score s (reviewed (clks k) r fc)))).
Proof.
  induction results as [|[i0 r0] rest IH]; intros clks db Hok Hnd.
  - simpl. split; [exact Hok|]. split; [reflexivity|].
    intros k i r H. destruct k; discriminate.
  - simpl in Hnd. inversion Hnd as [|x l Hnotin Hnd']; subst.
    destruct (review_returns (clks 0%nat) db i0 r0 Hok)
      as [f [Hret [Hkeep [Hst _]]]].
    pose proof (content_kept_id f Hkeep) as Hid.
    cbn [update_flashcard_results]. rewrite Hret.
    assert (Hok1 : check_ok (update_where i0 f db))
      by (apply update_where_check_ok; assumption).
    destruct (IH (fun k => clks (S k)) (update_where i0 f db) Hok1 Hnd')
      as [Hok' [Hframe Hrows]].
    split; [exact Hok'|]. split.
    + intros i Hi. simpl in Hi. rewrite Hframe by tauto.
      apply get_update_where_other; [exact Hid | tauto].
    + intros k i r Hk. destruct k as [|k]; simpl in Hk.
      * inversion Hk; subst i r. rewrite (Hframe i0 Hnotin). split.
        -- intros Hnone. rewrite get_update_where by exact Hid.
           rewrite Hnone. reflexivity.
        -- intros fc Hget.
           pose proof (check_ok_get _ _ _ Hok Hget) as Hfc.
           destruct (review_step_scored (clks 0%nat) db i0 r0 fc Hget Hfc)
             as [db1 [s [Hret1 [Hrow Hs]]]].
           rewrite Hret in Hret1. inversion Hret1 as [Hdb1].
           exists s. split; [exact Hs|]. rewrite Hdb1. exact Hrow.
      * assert (Hne : i0 <> i).
        { intros E. subst i. apply Hnotin.
          apply nth_error_In in Hk. apply (in_map fst) in Hk. exact Hk. }
        destruct (Hrows k i r Hk) as [Hnone Hsome].
        rewrite get_update_where_other in Hnone, Hsome by assumption.
        split; assumption.
Qed.

Lemma batch_applies_each_result_witness :
  check_ok
    (update_flashcard_results (fun _ => frozen 7200000000)
       [early_card; late_wrong_card] [(2, "True"); (9, "False"); (1, "TIMEOUT")]) /\
  (exists s,
     _calculate_priority_score 7200000000
       (reviewed (frozen 7200000000) "TIMEOUT" early_card) = Some s /\
     get_flashcard_by_id
       (update_flashcard_results (fun _ => frozen 7200000000)
          [early_card; late_wrong_card]
          [(2, "True"); (9, "False"); (1, "TIMEOUT")]) 1
     = Some (set_priority_score s
               (reviewed (frozen 7200000000) "TIMEOUT" early_card))).
Proof.
  destruct (batch_applies_each_result [(2, "True"); (9, "False"); (1, "TIMEOUT")]
              (fun _ => frozen 7200000000) [early_card; late_wrong_card]
              check_ok_pair)
    as [H1 [_ H2]].
  - repeat constructor; simpl; intuition discriminate.
  - split; [exact H1|].
    exact (proj2 (H2 2%nat 1 "TIMEOUT" eq_refl) early_card eq_refl).
Defined.

Lemma postpone_values (l : list FlashCard) :
  forall d : list (Z * string),
    Forall (fun p => snd p = "TIMEOUT") d ->
    Forall (fun p => snd p = "TIMEOUT")
      (fold_left (fun d fc => dict_set Z.eqb (id fc) "TIMEOUT" d) l d).
Proof.
  induction l as [|a rest IH]; simpl; intros d Hd; [exact Hd|].
  apply IH. clear IH.
  induction Hd as [|[k v] d Hp Hd IHd]; simpl.
  - repeat constructor.
  - destruct (k =? id a); constructor; auto.
Qed.

Lemma postpone_keys (l : list FlashCard) :
  forall d : list (Z * string),
    NoDup (map fst d) ->
    NoDup (map fst
             (fold_left (fun d fc => dict_set Z.eqb (id fc) "TIMEOUT" d) l d)).
Proof.
  induction l as [|a rest IH]; simpl; intros d Hd; [exact Hd|].
  apply IH. apply (dict_set_keys_nodup Z.eqb Z.eqb_eq). exact Hd.
Qed.

(** A batch of non-answers leaves every due time where it was. *)
Lemma batch_of_non_answers (results : list (Z * string)) :
  forall (clks : nat -> clock) (db : store),
    check_ok db ->
    Forall (fun p => snd p <> "True" /\ snd p <> "False") results ->
    (forall t, count_due t (update_flashcard_results clks db results)
               = count_due t db) /\
    (forall t, earliest_upcoming t (update_flashcard_results clks db results)
               = earliest_upcoming t db).
Proof.
  induction results as [|[i0 r0] rest IH]; intros clks db Hok Hall.
  - simpl. auto.
  - inversion Hall as [|x l [HT HF] Hrest]; subst. simpl in HT, HF.
    destruct (review_returns (clks 0%nat) db i0 r0 Hok)
      as [f [Hret [_ [Hst Hnext]]]].
    specialize (Hnext HT HF).
    cbn [update_flashcard_results]. rewrite Hret.
    assert (Hok1 : check_ok (update_where i0 f db))
      by (apply update_where_check_ok; assumption).
    destruct (IH (fun k => clks (S k)) _ Hok1 Hrest) as [Hc He].
    split; intros t.
    + rewrite Hc. apply update_where_count_due. exact Hnext.
    + rewrite He. apply update_where_earliest_upcoming. exact Hnext.
Qed.

(** X19. Declining a review costs nothing.  [postpone_review] files
    every pending card as "TIMEOUT", under distinct keys; applying that
    dict to a table that passes its [CHECK] leaves the number of due
    cards at every instant, and the delay to the next check, as they
    were: the pending cards stay due. *)
Theorem declined_review_keeps_schedule (clks : nat -> clock) (db : store)
  (pending : list FlashCard) :
  check_ok db ->
  (forall fc, In fc pending ->
     dict_get Z.eqb (id fc) (postpone_review pending) = Some "TIMEOUT") /\
  NoDup (map fst (postpone_review pending)) /\
  (forall t,
     count_due t (update_flashcard_results clks db (postpone_review pending))
     = count_due t db) /\
  (forall clk,
     calculate_next_test_interval clk
       (update_flashcard_results clks db (postpone_review pending))
     = calculate_next_test_interval clk db).
Proof.
  intros Hok. unfold postpone_review.
  split; [|split].
  - intros fc Hin. apply mark_in. apply in_map. exact Hin.
  - apply postpone_keys. constructor.
  - assert (Hall : Forall (fun p : Z * string =>
                             snd p <> "True" /\ snd p <> "False")
                     (fold_left
                        (fun d fc => dict_set Z.eqb (id fc) "TIMEOUT" d)
                        pending [])).
    { pose proof (postpone_values pending [] (Forall_nil _)) as H.
      rewrite Forall_forall in *. intros p Hp. rewrite (H p Hp).
      split; discriminate. }
    destruct (batch_of_non_answers _ clks db Hok Hall) as [Hc He].
    split; [exact Hc|].
    intros clk. unfold calculate_next_test_interval. rewrite Hc, He. reflexivity.
Qed.

Lemma declined_review_keeps_schedule_witness :
  postpone_review [early_card; late_wrong_card]
  = [(1, "TIMEOUT"); (2, "TIMEOUT")] /\
  count_due 7200000000
    (update_flashcard_results (fun _ => frozen 7200000000)
       [early_card; late_wrong_card]
       (postpone_review [early_card; late_wrong_card]))
  = 2.
Proof.
  destruct (declined_review_keeps_schedule (fun _ => frozen 7200000000)
              [early_card; late_wrong_card] [early_card; late_wrong_card]
              check_ok_pair)
    as [_ [_ [H _]]].
  split; [reflexivity|]. rewrite H. reflexivity.
Defined.

(** ** The timeout configuration *)

Lemma set_stage_timeout_keys (s t : Z) (m : list (Z * Z)) :
  map fst m = [1; 2; 3; 4] -> map fst (set_stage_timeout s t m) = [1; 2; 3; 4].
Proof.
  intros Hk. unfold set_stage_timeout.
  destruct ((1 <=? s) && (s <=? 4)) eqn:E; [|exact Hk].
  rewrite (dict_set_keys Z.eqb Z.eqb_eq).
  destruct (dict_get Z.eqb s m) eqn:Eg; [exact Hk|].
  exfalso.
  assert (Hin : In s (map fst m)).
  { rewrite Hk. apply andb_true_iff in E. destruct E as [E1 E2].
    apply Z.leb_le in E1, E2. simpl. lia. }
  apply (dict_get_in_keys Z.eqb Z.eqb_eq) in Hin. congruence.
Qed.

(** X20. The per-stage timeouts.  Setting the timeout of a stage from 1
    to 4 is read back by [get_stage_timeout] and leaves the other stages
    as they were; a stage outside 1..4 is refused and the configuration is
    kept as it is.  So after any series of calls the configuration still
    has exactly the four stages, and a stage outside 1..4 reads the
    default of 10 seconds. *)
Theorem stage_timeouts_configuration :
  (forall s t m,
     1 <= s <= 4 -> get_stage_timeout s (set_stage_timeout s t m) = t) /\
  (forall s s' t m,
     s <> s' ->
     get_stage_timeout s' (set_stage_timeout s t m) = get_stage_timeout s' m) /\
  (forall s t m, ~ 1 <= s <= 4 -> set_stage_timeout s t m = m) /\
  (forall calls,
     map fst (configure_timeouts calls initial_stage_timeouts) = [1; 2; 3; 4] /\
     forall s,
       ~ 1 <= s <= 4 ->
       get_stage_timeout s (configure_timeouts calls initial_stage_timeouts)
       = default_timeout).
Proof.
  split; [|split; [|split]].
  - intros s t m Hs. unfold get_stage_timeout, set_stage_timeout.
    assert (E : (1 <=? s) && (s <=? 4) = true).
    { apply andb_true_iff. split; apply Z.leb_le; lia. }
    rewrite E, (dict_get_set_same Z.eqb Z.eqb_eq). reflexivity.
  - intros s s' t m Hne. unfold get_stage_timeout, set_stage_timeout.
    destruct ((1 <=? s) && (s <=? 4)); [|reflexivity].
    rewrite (dict_get_set_other Z.eqb Z.eqb_eq) by exact Hne. reflexivity.
  - intros s t m Hs. unfold set_stage_timeout.
    destruct ((1 <=? s) && (s <=? 4)) eqn:E; [|reflexivity].
    apply andb_true_iff in E. destruct E as [E1 E2].
    apply Z.leb_le in E1, E2. lia.
  - intros calls.
    assert (Hkeys : forall m,
               map fst m = [1; 2; 3; 4] ->
               map fst (configure_timeouts calls m) = [1; 2; 3; 4]).
    { unfold configure_timeouts.
      induction calls as [|[s t] rest IH]; intros m Hm; [exact Hm|].
      simpl. apply IH. apply set_stage_timeout_keys. exact Hm. }
    specialize (Hkeys initial_stage_timeouts eq_refl).
    split; [exact Hkeys|].
    intros s Hs. unfold get_stage_timeout.
    destruct (dict_get Z.eqb s
                (configure_timeouts calls initial_stage_timeouts)) eqn:E;
      [|reflexivity].
    exfalso.
    assert (Hin : In s (map fst (configure_timeouts calls initial_stage_timeouts))).
    { apply (dict_get_in_keys Z.eqb Z.eqb_eq). congruence. }
    rewrite Hkeys in Hin. simpl in Hin. lia.
Qed.

(** ** Asking for the due set again *)

(** X21. The due-set query is repeatable.  With the clock held at [now],
    on a table that satisfies its constraints, a second call of
    [get_due_flashcards] on the table the first call left returns the
    same rows and leaves that table as it is. *)
Theorem due_set_repeatable (now : time) (db : store) (limit : Z) :
  check_ok db -> unique_ids db ->
  exists db' res,
    get_due_flashcards (frozen now) db limit = Returned (db', res) /\
    get_due_flashcards (frozen now) db' limit = Returned (db', res).
Proof.
  intros Hok Hnd.
  destruct (get_due_frozen_rows now db limit Hok Hnd) as [db' [Hret Hrel]].
  assert (Hok' : check_ok db').
  { clear Hret. unfold check_ok in *.
    induction Hrel as [|r r' l l' [s [_ ->]] _ IH]; [constructor|].
    inversion Hok; subst. unfold unique_ids in Hnd. simpl in Hnd.
    inversion Hnd; subst. constructor; auto. }
  assert (Hids : map id db' = map id db).
  { clear Hret Hok'. induction Hrel as [|r r' l l' [s [_ ->]] _ IH];
      [reflexivity|].
    simpl. f_equal. apply IH.
    - inversion Hok; assumption.
    - unfold unique_ids in *. simpl in Hnd. inversion Hnd; assumption. }
  assert (Hnd' : unique_ids db') by (unfold unique_ids; rewrite Hids; exact Hnd).
  destruct (get_due_frozen_rows now db' limit Hok' Hnd') as [db'' [Hret' Hrel']].
  assert (Hsame : db'' = db').
  { clear Hret Hret' Hok Hnd Hok' Hnd' Hids.
    revert db'' Hrel'.
    induction Hrel as [|r r' l l' [s [Hs ->]] _ IH]; intros db'' Hrel'.
    - inversion Hrel'. reflexivity.
    - inversion Hrel' as [|x y lx ly [s' [Hs' ->]] Hrest]; subst.
      f_equal; [|apply IH; exact Hrest].
      assert (E : _calculate_priority_score now (set_priority_score s r)
                  = _calculate_priority_score now r)
        by (apply score_ext; reflexivity).
      rewrite E, Hs in Hs'. inversion Hs'. reflexivity. }
  rewrite Hsame in Hret'.
  eexists db', _. split; [exact Hret | exact Hret'].
Qed.

Lemma due_set_repeatable_witness :
  exists db' res,
    get_due_flashcards (frozen 7200000000) [early_card; late_wrong_card] 5
    = Returned (db', res) /\
    get_due_flashcards (frozen 7200000000) db' 5 = Returned (db', res).
Proof.
  apply (due_set_repeatable 7200000000 [early_card; late_wrong_card] 5).
  - exact check_ok_pair.
  - exact unique_ids_pair.
Defined.

(** ** What the samplers draw from *)

Lemma top_up_full (count : Z) (defaults ws : list string) :
  count <= Z.of_nat (List.length ws) -> top_up count defaults ws = ws.
Proof.
  intros H. destruct defaults as [|d rest]; simpl; [reflexivity|].
  apply Z.leb_le in H. rewrite H. reflexivity.
Qed.

Lemma top_up_nodup (count : Z) (defaults : list string) :
  forall ws : list string, NoDup ws -> NoDup (top_up count defaults ws).
Proof.
  induction defaults as [|d rest IH]; simpl; intros ws Hnd; [exact Hnd|].
  destruct (count <=? Z.of_nat (List.length ws)); [exact Hnd|].
  destruct (mem_string d ws) eqn:Em; [apply IH; exact Hnd|].
  apply IH. apply NoDup_app; [exact Hnd | repeat constructor; simpl; tauto|].
  intros x Hx [<- | []].
  apply mem_string_in in Hx. congruence.
Qed.

Lemma nodup_map_filter (col : FlashCard -> string) (f : FlashCard -> bool)
  (l : list FlashCard) :
  NoDup (map col l) -> NoDup (map col (filter f l)).
Proof.
  induction l as [|r l IH]; simpl; intros H; [constructor|].
  inversion H as [|x xs Hnotin Hrest]; subst.
  destruct (f r); [|auto]. simpl. constructor; [|auto].
  intros Hin. apply Hnotin. apply in_map_iff in Hin.
  destruct Hin as [r' [Hc Hr']]. apply filter_In in Hr'.
  apply in_map_iff. exists r'. tauto.
Qed.

Lemma slice_to_nodup {A : Type} (count : Z) (l : list A) :
  NoDup l -> NoDup (slice_to count l).
Proof.
  unfold slice_to. destruct (count <? 0); apply firstn_nodup.
Qed.

Lemma sql_limit_nodup {A : Type} (n : Z) (l : list A) :
  NoDup l -> NoDup (sql_limit n l).
Proof.
  unfold sql_limit. destruct (n <? 0); [auto | apply firstn_nodup].
Qed.

Lemma firstn_map {A B : Type} (f : A -> B) (n : nat) (l : list A) :
  firstn n (map f l) = map f (firstn n l).
Proof.
  revert n. induction l as [|x l IH]; intros [|n]; simpl; try reflexivity.
  rewrite IH. reflexivity.
Qed.

Lemma sql_limit_map {A B : Type} (f : A -> B) (n : Z) (l : list A) :
  sql_limit n (map f l) = map f (sql_limit n l).
Proof.
  unfold sql_limit. destruct (n <? 0); [reflexivity | apply firstn_map].
Qed.

(** X22. What the contextual samplers draw from.  When the window of
    ten ids before and ten ids after the target holds at least [count]
    rows, every string returned is the column of a row of that window,
    that is of a row whose id differs from the target's by 1 to 10: no
    random row and no built-in default is used.  And when the column
    values of the store are pairwise distinct, the strings returned are
    pairwise distinct, whatever the window holds. *)
Theorem samplers_draw_from_window
  (sql_random : list FlashCard -> list FlashCard)
  (shuffle : list string -> list string)
  (col : FlashCard -> string) (defaults : list string)
  (db : store) (exclude_id count : Z) :
  (forall l, Permutation (sql_random l) l) ->
  (forall l, Permutation (shuffle l) l) ->
  NoDup defaults ->
  (count <= Z.of_nat (List.length (filter (in_window exclude_id) db)) ->
   forall w,
     In w (contextual_sample col defaults sql_random shuffle db exclude_id count) ->
     exists r,
       In r db /\ col r = w /\
       1 <= Z.abs (id r - exclude_id) <= 10) /\
  (NoDup (map col db) ->
   NoDup (contextual_sample col defaults sql_random shuffle db exclude_id count)).
Proof.
  intros Hr Hs Hdef. unfold contextual_sample.
  set (window := order_by id_asc (filter (in_window exclude_id) db)).
  assert (Hwlen : List.length (map col window)
                  = List.length (filter (in_window exclude_id) db)).
  { rewrite length_map. unfold window.
    apply (Permutation_length (order_by_perm id_asc _)). }
  split.
  - intros Hfull w Hw.
    apply slice_to_in in Hw. apply (Permutation_in _ (Hs _)) in Hw.
    assert (E : (Z.of_nat (List.length (map col window)) <? count) = false)
      by (apply Z.ltb_ge; rewrite Hwlen; exact Hfull).
    rewrite E in Hw. rewrite top_up_full in Hw by (rewrite Hwlen; exact Hfull).
    apply in_map_iff in Hw. destruct Hw as [r [Hc Hin]].
    unfold window in Hin. apply order_by_in in Hin.
    apply filter_In in Hin. destruct Hin as [Hin Hwin].
    exists r. split; [exact Hin|]. split; [exact Hc|].
    unfold in_window in Hwin.
    rewrite andb_true_iff, orb_true_iff, !andb_true_iff, negb_true_iff,
      Z.eqb_neq, !Z.leb_le in Hwin.
    lia.
  - intros Hnd.
    apply slice_to_nodup. apply (Permutation_NoDup (Permutation_sym (Hs _))).
    apply top_up_nodup.
    assert (Hwnd : NoDup (map col window)).
    { unfold window.
      apply (Permutation_NoDup
               (Permutation_map col (Permutation_sym (order_by_perm id_asc _)))).
      apply nodup_map_filter. exact Hnd. }
    destruct (Z.of_nat (List.length (map col window)) <? count); [|exact Hwnd].
    apply NoDup_app; [exact Hwnd | |].
    + rewrite <- sql_limit_map. apply sql_limit_nodup.
      apply (Permutation_NoDup
               (Permutation_map col (Permutation_sym (Hr _)))).
      apply nodup_map_filter. exact Hnd.
    + intros x Hx Hx'. apply in_map_iff in Hx'. destruct Hx' as [r [Hc Hin]].
      apply sql_limit_in in Hin. apply (Permutation_in _ (Hr _)) in Hin.
      apply filter_In in Hin. destruct Hin as [_ Hf].
      apply andb_true_iff in Hf. destruct Hf as [_ Hf].
      apply negb_true_iff in Hf.
      assert (Hmem : mem_string (col r) (map col window) = true)
        by (apply mem_string_in; rewrite Hc; exact Hx).
      congruence.
Qed.

Lemma samplers_draw_from_window_witness :
  (forall w,
     In w (get_contextual_words_for_stage3 keep_order keep_order
             [early_card; late_wrong_card] 1 1) ->
     exists r,
       In r [early_card; late_wrong_card] /\ word r = w /\
       1 <= Z.abs (id r - 1) <= 10) /\
  NoDup (get_contextual_words_for_stage3 keep_order keep_order
           [early_card; late_wrong_card] 1 3).
Proof.
  split.
  - apply (samplers_draw_from_window keep_order keep_order word default_words
             [early_card; late_wrong_card] 1 1
             (@keep_order_perm FlashCard) (@keep_order_perm string)
             default_words_nodup).
    simpl. lia.
  - apply (samplers_draw_from_window keep_order keep_order word default_words
             [early_card; late_wrong_card] 1 3
             (@keep_order_perm FlashCard) (@keep_order_perm string)
             default_words_nodup).
    repeat constructor; simpl; intuition discriminate.
Defined.
